(** * Opportunity board (app.js): a shallow embedding and its properties

    The program is a single event loop over two module-level variables
    ([opportunities], [currentFilter]), the browser's [localStorage] and a
    handful of DOM nodes.  The embedding keeps that shape:

    - JavaScript strings are sequences of UTF-16 code units;
    - the platform functions the program calls ([String.prototype.trim],
      [JSON.stringify], [JSON.parse], [parseInt], the HTML fragment
      serialisation behind [escapeHTML]) are written out as executable
      functions on code units;
    - the program itself is a set of state transformers on one record that
      holds the module variables, the storage area and the DOM nodes the
      program writes. *)

From Stdlib Require Import Decimal DecimalFacts DecimalPos.
From Stdlib Require Import ZArith NArith Bool Lia String Ascii.
From Stdlib Require Import List Permutation Sorted.
Import ListNotations.

(* ================================================================== *)
(** * JavaScript strings *)
(* ================================================================== *)

(** A string value is a finite sequence of 16-bit code units.  Code units
    are kept as [N]; the functions below never produce a unit above
    [0xFFFF] from units below it. *)
Abbreviation char16 := N (only parsing).
Abbreviation jsstring := (list N) (only parsing).

(** A string literal of the source, all of whose characters are ASCII. *)
Definition lit (s : string) : jsstring :=
  List.map N_of_ascii (list_ascii_of_string s).

(** The quotation mark, written by its code (U+0022). *)
Definition QUOTE : char16 := 34%N.
(** The reverse solidus (U+005C). *)
Definition BACKSLASH : char16 := 92%N.

(** [a === b] on two strings. *)
Fixpoint str_eqb (a b : jsstring) : bool :=
  match a, b with
  | [], [] => true
  | x :: a', y :: b' => N.eqb x y && str_eqb a' b'
  | _, _ => false
  end.

(** WhiteSpace and LineTerminator code points of ECMA-262, the set that
    [String.prototype.trim] strips. *)
Definition isWhiteSpace (c : char16) : bool :=
  ((c =? 9) || (c =? 10) || (c =? 11) || (c =? 12) || (c =? 13)
   || (c =? 32) || (c =? 160) || (c =? 5760)
   || ((8192 <=? c) && (c <=? 8202))
   || (c =? 8232) || (c =? 8233) || (c =? 8239) || (c =? 8287)
   || (c =? 12288) || (c =? 65279))%N.

Fixpoint trimStart (s : jsstring) : jsstring :=
  match s with
  | [] => []
  | c :: r => if isWhiteSpace c then trimStart r else s
  end.

Definition trimEnd (s : jsstring) : jsstring := rev (trimStart (rev s)).

(** [s.trim()] *)
Definition trim (s : jsstring) : jsstring := trimEnd (trimStart s).

(** ** Decimal digits *)

(** The character of a sequence of decimal digits. *)
Fixpoint uint_chars (d : uint) : jsstring :=
  match d with
  | Nil => []
  | D0 d => 48%N :: uint_chars d
  | D1 d => 49%N :: uint_chars d
  | D2 d => 50%N :: uint_chars d
  | D3 d => 51%N :: uint_chars d
  | D4 d => 52%N :: uint_chars d
  | D5 d => 53%N :: uint_chars d
  | D6 d => 54%N :: uint_chars d
  | D7 d => 55%N :: uint_chars d
  | D8 d => 56%N :: uint_chars d
  | D9 d => 57%N :: uint_chars d
  end.

Definition digit_char (c : char16) : option (uint -> uint) :=
  (if c =? 48 then Some D0 else if c =? 49 then Some D1
   else if c =? 50 then Some D2 else if c =? 51 then Some D3
   else if c =? 52 then Some D4 else if c =? 53 then Some D5
   else if c =? 54 then Some D6 else if c =? 55 then Some D7
   else if c =? 56 then Some D8 else if c =? 57 then Some D9
   else None)%N.

Definition is_digit (c : char16) : bool :=
  match digit_char c with Some _ => true | None => false end.

(** The longest prefix of decimal digits, and what follows it. *)
Fixpoint read_digits (s : jsstring) : uint * jsstring :=
  match s with
  | [] => (Nil, [])
  | c :: r =>
      match digit_char c with
      | Some D => let (d, r') := read_digits r in (D d, r')
      | None => (Nil, s)
      end
  end.

(** Numbers that are integers are kept as [Z].  A Number holds every
    integer below 2^53 in absolute value exactly, which covers the clock
    readings the program uses as ids and the lengths it counts. *)
Definition safe_integer (z : Z) : Prop := (- 2 ^ 53 < z < 2 ^ 53)%Z.

(** [String(n)] for a safe integer: the decimal digits, with a minus
    sign when negative.  Beyond that range the engine writes the
    shortest digits that give the Number back, and from 10^21 on an
    exponent; what is proved of the text of an id is stated for safe
    integers. *)
Definition Number_toString (z : Z) : jsstring :=
  match Z.to_int z with
  | Pos d => uint_chars d
  | Neg d => 45%N :: uint_chars d
  end.

(** [parseInt(s, 10)]: leading white space is skipped, one sign is read,
    then the longest run of decimal digits; [None] stands for NaN. *)
Definition parseInt10 (s : jsstring) : option Z :=
  let s := trimStart s in
  let (neg, s) :=
    match s with
    | c :: r => if (c =? 45)%N then (true, r)
                else if (c =? 43)%N then (false, r) else (false, s)
    | [] => (false, s)
    end in
  match read_digits s with
  | (Nil, _) => None
  | (d, _) => Some (if neg then Z.opp (Z.of_N (N.of_uint d)) else Z.of_N (N.of_uint d))
  end.

(* ================================================================== *)
(** * Data model *)
(* ================================================================== *)

(** The object literal built in [handleAddOpportunity]: four own
    properties, in this order. *)
Record opportunity := mkOpportunity {
  id : Z;
  title : jsstring;
  category : jsstring;
  saved : bool
}.

(* ================================================================== *)
(** * JSON *)
(* ================================================================== *)

Module JSON.

(** A number as a JSON text writes it: [mant] times ten to the [expo].
    The rounding to binary64 that the engine applies is not part of the
    model; it is the identity on the integers the program produces
    ([Date.now()] is far below 2^53).  In an object, the members are kept
    in the order of the text; the engine moves keys that are array
    indices to the front, which no record of the program has. *)
Record decimal := mkDecimal { mant : Z; expo : Z }.

#[local] Unset Elimination Schemes.
Inductive json :=
| JNull
| JBool (b : bool)
| JNum (d : decimal)
| JStr (s : jsstring)
| JArr (l : list json)
| JObj (m : list (jsstring * json)).
#[local] Set Elimination Schemes.

(** The integer a number denotes, when it denotes one. *)
Definition decimal_int (d : decimal) : option Z :=
  if (0 <=? expo d)%Z then Some (mant d * 10 ^ expo d)%Z
  else
    let p := (10 ^ (- expo d))%Z in
    if (mant d mod p =? 0)%Z then Some (mant d / p)%Z else None.

(** ** Serialisation *)

Definition hex_char (n : N) : char16 :=
  (if n <? 10 then 48 + n else 87 + n)%N.

(** [\uXXXX] with lower-case hexadecimal digits. *)
Definition UnicodeEscape (c : char16) : jsstring :=
  [BACKSLASH; 117%N;
   hex_char ((c / 4096) mod 16); hex_char ((c / 256) mod 16);
   hex_char ((c / 16) mod 16); hex_char (c mod 16)].

Definition is_lead (c : char16) : bool := ((55296 <=? c) && (c <=? 56319))%N.
Definition is_trail (c : char16) : bool := ((56320 <=? c) && (c <=? 57343))%N.

(** One code point that is not a surrogate, as QuoteJSONString writes it. *)
Definition quote_unit (c : char16) : jsstring :=
  (if c =? 8 then [BACKSLASH; 98]
   else if c =? 9 then [BACKSLASH; 116]
   else if c =? 10 then [BACKSLASH; 110]
   else if c =? 12 then [BACKSLASH; 102]
   else if c =? 13 then [BACKSLASH; 114]
   else if c =? QUOTE then [BACKSLASH; QUOTE]
   else if c =? BACKSLASH then [BACKSLASH; BACKSLASH]
   else if c <? 32 then UnicodeEscape c
   else [c])%N.

(** The text between the quotation marks: a surrogate pair is copied, a
    lone surrogate is written as an escape. *)
Fixpoint quote_body (s : jsstring) : jsstring :=
  match s with
  | [] => []
  | c :: r =>
      if is_lead c then
        match r with
        | d :: r' =>
            if is_trail d then c :: d :: quote_body r'
            else UnicodeEscape c ++ quote_body r
        | [] => UnicodeEscape c
        end
      else if is_trail c then UnicodeEscape c ++ quote_body r
      else quote_unit c ++ quote_body r
  end.

Definition QuoteJSONString (s : jsstring) : jsstring :=
  QUOTE :: quote_body s ++ [QUOTE].

Definition stringify_bool (b : bool) : jsstring :=
  if b then lit "true" else lit "false".

(** One record: the own properties in creation order, no white space. *)
Definition stringify_opportunity (op : opportunity) : jsstring :=
  lit "{" ++ QuoteJSONString (lit "id") ++ lit ":" ++ Number_toString (id op)
  ++ lit "," ++ QuoteJSONString (lit "title") ++ lit ":"
  ++ QuoteJSONString (title op)
  ++ lit "," ++ QuoteJSONString (lit "category") ++ lit ":"
  ++ QuoteJSONString (category op)
  ++ lit "," ++ QuoteJSONString (lit "saved") ++ lit ":"
  ++ stringify_bool (saved op) ++ lit "}".

Fixpoint stringify_elements (l : list opportunity) : jsstring :=
  match l with
  | [] => []
  | [op] => stringify_opportunity op
  | op :: l' => stringify_opportunity op ++ lit "," ++ stringify_elements l'
  end.

(** [JSON.stringify(l)] for an array [l] of opportunity records. *)
Definition stringify (l : list opportunity) : jsstring :=
  lit "[" ++ stringify_elements l ++ lit "]".

(** ** Parsing *)

Definition is_ws (c : char16) : bool :=
  ((c =? 9) || (c =? 10) || (c =? 13) || (c =? 32))%N.

Fixpoint skip_ws (s : jsstring) : jsstring :=
  match s with
  | c :: r => if is_ws c then skip_ws r else s
  | [] => []
  end.

Fixpoint strip_prefix (p s : jsstring) : option jsstring :=
  match p, s with
  | [], _ => Some s
  | x :: p', y :: s' => if (x =? y)%N then strip_prefix p' s' else None
  | _ :: _, [] => None
  end.

Definition hex_val (c : char16) : option N :=
  (if (48 <=? c) && (c <=? 57) then Some (c - 48)
   else if (97 <=? c) && (c <=? 102) then Some (c - 87)
   else if (65 <=? c) && (c <=? 70) then Some (c - 55)
   else None)%N.

Definition hex4 (a b c d : char16) : option char16 :=
  match hex_val a, hex_val b, hex_val c, hex_val d with
  | Some x, Some y, Some z, Some w => Some (x * 4096 + y * 256 + z * 16 + w)%N
  | _, _, _, _ => None
  end.

(** The characters of a string after its opening quotation mark, up to
    and including the closing one. *)
Fixpoint parse_string_body (s : jsstring) : option (jsstring * jsstring) :=
  match s with
  | [] => None
  | c :: r =>
      if (c =? QUOTE)%N then Some ([], r)
      else if (c =? BACKSLASH)%N then
        match r with
        | [] => None
        | e :: r1 =>
            let simple (u : char16) :=
              match parse_string_body r1 with
              | Some (t, r') => Some (u :: t, r')
              | None => None
              end in
            if (e =? QUOTE)%N then simple QUOTE
            else if (e =? BACKSLASH)%N then simple BACKSLASH
            else if (e =? 47)%N then simple 47%N
            else if (e =? 98)%N then simple 8%N
            else if (e =? 102)%N then simple 12%N
            else if (e =? 110)%N then simple 10%N
            else if (e =? 114)%N then simple 13%N
            else if (e =? 116)%N then simple 9%N
            else if (e =? 117)%N then
              match r1 with
              | h1 :: h2 :: h3 :: h4 :: r2 =>
                  match hex4 h1 h2 h3 h4 with
                  | Some u =>
                      match parse_string_body r2 with
                      | Some (t, r') => Some (u :: t, r')
                      | None => None
                      end
                  | None => None
                  end
              | _ => None
              end
            else None
        end
      else if (c <? 32)%N then None
      else
        match parse_string_body r with
        | Some (t, r') => Some (c :: t, r')
        | None => None
        end
  end.

(** A JSON number: an optional minus sign; the integer part, a single
    zero or digits that do not start with zero; an optional fraction, a
    full stop and at least one digit; an optional exponent, [e] or [E],
    an optional sign and at least one digit. *)
Definition parse_number (s : jsstring) : option (decimal * jsstring) :=
  let (neg, s1) :=
    match s with
    | c :: r => if (c =? 45)%N then (true, r) else (false, s)
    | [] => (false, s)
    end in
  let (int, s2) := read_digits s1 in
  let int_ok :=
    match int with
    | Nil => false
    | D0 Nil => true
    | D0 _ => false
    | _ => true
    end in
  if negb int_ok then None else
  let frac_part :=
    match s2 with
    | c :: r =>
        if (c =? 46)%N then
          match read_digits r with
          | (Nil, _) => None
          | (f, r') => Some (f, r')
          end
        else Some (Nil, s2)
    | [] => Some (Nil, s2)
    end in
  match frac_part with
  | None => None
  | Some (frac, s3) =>
      let exp_part :=
        match s3 with
        | c :: r =>
            if ((c =? 101) || (c =? 69))%N then
              let (eneg, r1) :=
                match r with
                | g :: r' => if (g =? 45)%N then (true, r')
                             else if (g =? 43)%N then (false, r') else (false, r)
                | [] => (false, r)
                end in
              match read_digits r1 with
              | (Nil, _) => None
              | (e, r2) =>
                  let v := Z.of_N (N.of_uint e) in
                  Some (if eneg then (- v)%Z else v, r2)
              end
            else Some (0%Z, s3)
        | [] => Some (0%Z, s3)
        end in
      match exp_part with
      | None => None
      | Some (e, s4) =>
          let m := Z.of_N (N.of_uint (Decimal.app int frac)) in
          Some (mkDecimal (if neg then (- m)%Z else m)
                          (e - Z.of_nat (nb_digits frac))%Z, s4)
      end
  end.

(** CreateDataProperty on the object under construction: a key met again
    overwrites the earlier value in place, a new key goes last. *)
Fixpoint set_member (m : list (jsstring * json)) (k : jsstring) (v : json)
  : list (jsstring * json) :=
  match m with
  | [] => [(k, v)]
  | (k', v') :: m' =>
      if str_eqb k' k then (k', v) :: m' else (k', v') :: set_member m' k v
  end.

(** Recursive descent; [fuel] bounds the number of nested calls. *)
Fixpoint parse_value (fuel : nat) (s : jsstring) : option (json * jsstring) :=
  match fuel with
  | O => None
  | S fuel' =>
      match skip_ws s with
      | [] => None
      | c :: r =>
          if (c =? 91)%N then
            match skip_ws r with
            | d :: r' =>
                if (d =? 93)%N then Some (JArr [], r')
                else
                  match parse_elements fuel' r with
                  | Some (l, r'') => Some (JArr l, r'')
                  | None => None
                  end
            | [] => None
            end
          else if (c =? 123)%N then
            match skip_ws r with
            | d :: r' =>
                if (d =? 125)%N then Some (JObj [], r')
                else
                  match parse_members fuel' r [] with
                  | Some (m, r'') => Some (JObj m, r'')
                  | None => None
                  end
            | [] => None
            end
          else if (c =? QUOTE)%N then
            match parse_string_body r with
            | Some (t, r') => Some (JStr t, r')
            | None => None
            end
          else if (c =? 45)%N || is_digit c then
            match parse_number (c :: r) with
            | Some (d, r') => Some (JNum d, r')
            | None => None
            end
          else
            match strip_prefix (lit "true") (c :: r) with
            | Some r' => Some (JBool true, r')
            | None =>
                match strip_prefix (lit "false") (c :: r) with
                | Some r' => Some (JBool false, r')
                | None =>
                    match strip_prefix (lit "null") (c :: r) with
                    | Some r' => Some (JNull, r')
                    | None => None
                    end
                end
            end
      end
  end

with parse_elements (fuel : nat) (s : jsstring)
  : option (list json * jsstring) :=
  match fuel with
  | O => None
  | S fuel' =>
      match parse_value fuel' s with
      | None => None
      | Some (v, r) =>
          match skip_ws r with
          | c :: r' =>
              if (c =? 44)%N then
                match parse_elements fuel' r' with
                | Some (l, r'') => Some (v :: l, r'')
                | None => None
                end
              else if (c =? 93)%N then Some ([v], r')
              else None
          | [] => None
          end
      end
  end

with parse_members (fuel : nat) (s : jsstring) (acc : list (jsstring * json))
  : option (list (jsstring * json) * jsstring) :=
  match fuel with
  | O => None
  | S fuel' =>
      match skip_ws s with
      | q :: r0 =>
          if negb (q =? QUOTE)%N then None else
          match parse_string_body r0 with
          | None => None
          | Some (k, r1) =>
              match skip_ws r1 with
              | c :: r2 =>
                  if negb (c =? 58)%N then None else
                  match parse_value fuel' r2 with
                  | None => None
                  | Some (v, r3) =>
                      let acc' := set_member acc k v in
                      match skip_ws r3 with
                      | d :: r4 =>
                          if (d =? 44)%N then parse_members fuel' r4 acc'
                          else if (d =? 125)%N then Some (acc', r4)
                          else None
                      | [] => None
                      end
                  end
              | [] => None
              end
          end
      | [] => None
      end
  end.

(** [JSON.parse(s)]; [None] is the SyntaxError exception.  Every nested
    call of the descent consumes input, so twice the length of the text
    (and two) is fuel enough. *)
Definition parse (s : jsstring) : option json :=
  match parse_value (2 * length s + 2) s with
  | Some (v, r) =>
      match skip_ws r with
      | [] => Some v
      | _ :: _ => None
      end
  | None => None
  end.

(** ** The expected shape *)

(** The value [JSON.parse] builds for the text of one record. *)
Definition of_opportunity (op : opportunity) : json :=
  JObj [(lit "id", JNum (mkDecimal (id op) 0));
        (lit "title", JStr (title op));
        (lit "category", JStr (category op));
        (lit "saved", JBool (saved op))].

Definition of_list (l : list opportunity) : json :=
  JArr (List.map of_opportunity l).

(** An object with exactly the four properties of a record, in creation
    order and of the expected types. *)
Definition as_opportunity (v : json) : option opportunity :=
  match v with
  | JObj [(k1, JNum d); (k2, JStr t); (k3, JStr c); (k4, JBool b)] =>
      if str_eqb k1 (lit "id") && str_eqb k2 (lit "title")
         && str_eqb k3 (lit "category") && str_eqb k4 (lit "saved")
      then
        match decimal_int d with
        | Some n => Some (mkOpportunity n t c b)
        | None => None
        end
      else None
  | _ => None
  end.

Fixpoint as_opportunities (l : list json) : option (list opportunity) :=
  match l with
  | [] => Some []
  | v :: l' =>
      match as_opportunity v, as_opportunities l' with
      | Some op, Some ops => Some (op :: ops)
      | _, _ => None
      end
  end.

Definition as_list (v : json) : option (list opportunity) :=
  match v with
  | JArr l => as_opportunities l
  | _ => None
  end.

End JSON.

(* ================================================================== *)
(** * The page *)
(* ================================================================== *)

(** ** Storage area *)

(** [localStorage]: string keys, string values. *)
Definition Storage := list (jsstring * jsstring).

(** [getItem(k)]; [None] is [null]. *)
Fixpoint getItem (k : jsstring) (s : Storage) : option jsstring :=
  match s with
  | [] => None
  | (k', v) :: s' => if str_eqb k' k then Some v else getItem k s'
  end.

(** [setItem(k, v)]: the whole value under [k] is replaced. *)
Fixpoint setItem (k v : jsstring) (s : Storage) : Storage :=
  match s with
  | [] => [(k, v)]
  | (k', v') :: s' =>
      if str_eqb k' k then (k', v) :: s' else (k', v') :: setItem k v s'
  end.

(** ** DOM nodes the program writes *)

(** A card: the [div] built by [createOpportunityCard], with the markup
    assigned to its [innerHTML]. *)
Record card := mkCard {
  className : jsstring;
  dataset_id : jsstring;
  innerHTML : jsstring
}.

(** A [.filter-btn] element: its [data-filter] attribute and whether its
    class list holds [active]. *)
Record filter_btn := mkFilterBtn {
  dataset_filter : jsstring;
  active : bool
}.

(** The module variables, the storage area and the nodes behind the
    element references taken at the top of the file. *)
Record Page := mkPage {
  opportunities : list opportunity;
  currentFilter : jsstring;
  localStorage : Storage;
  titleInput_value : jsstring;
  typeInput_value : jsstring;
  availableList : list card;
  savedList : list card;
  counterSpan_textContent : jsstring;
  filterButtons : list filter_btn;
  errorMessage_textContent : jsstring;
  errorMessage_display : jsstring
}.

Definition set_opportunities (l : list opportunity) (p : Page) : Page :=
  mkPage l (currentFilter p) (localStorage p) (titleInput_value p)
    (typeInput_value p) (availableList p) (savedList p)
    (counterSpan_textContent p) (filterButtons p)
    (errorMessage_textContent p) (errorMessage_display p).

Definition set_currentFilter (f : jsstring) (p : Page) : Page :=
  mkPage (opportunities p) f (localStorage p) (titleInput_value p)
    (typeInput_value p) (availableList p) (savedList p)
    (counterSpan_textContent p) (filterButtons p)
    (errorMessage_textContent p) (errorMessage_display p).

Definition set_localStorage (s : Storage) (p : Page) : Page :=
  mkPage (opportunities p) (currentFilter p) s (titleInput_value p)
    (typeInput_value p) (availableList p) (savedList p)
    (counterSpan_textContent p) (filterButtons p)
    (errorMessage_textContent p) (errorMessage_display p).

Definition set_titleInput_value (v : jsstring) (p : Page) : Page :=
  mkPage (opportunities p) (currentFilter p) (localStorage p) v
    (typeInput_value p) (availableList p) (savedList p)
    (counterSpan_textContent p) (filterButtons p)
    (errorMessage_textContent p) (errorMessage_display p).

Definition set_typeInput_value (v : jsstring) (p : Page) : Page :=
  mkPage (opportunities p) (currentFilter p) (localStorage p)
    (titleInput_value p) v (availableList p) (savedList p)
    (counterSpan_textContent p) (filterButtons p)
    (errorMessage_textContent p) (errorMessage_display p).

Definition set_lists (a s : list card) (p : Page) : Page :=
  mkPage (opportunities p) (currentFilter p) (localStorage p)
    (titleInput_value p) (typeInput_value p) a s
    (counterSpan_textContent p) (filterButtons p)
    (errorMessage_textContent p) (errorMessage_display p).

Definition set_counter (t : jsstring) (p : Page) : Page :=
  mkPage (opportunities p) (currentFilter p) (localStorage p)
    (titleInput_value p) (typeInput_value p) (availableList p) (savedList p)
    t (filterButtons p)
    (errorMessage_textContent p) (errorMessage_display p).

Definition set_filterButtons (b : list filter_btn) (p : Page) : Page :=
  mkPage (opportunities p) (currentFilter p) (localStorage p)
    (titleInput_value p) (typeInput_value p) (availableList p) (savedList p)
    (counterSpan_textContent p) b
    (errorMessage_textContent p) (errorMessage_display p).

Definition set_errorMessage_textContent (t : jsstring) (p : Page) : Page :=
  mkPage (opportunities p) (currentFilter p) (localStorage p)
    (titleInput_value p) (typeInput_value p) (availableList p) (savedList p)
    (counterSpan_textContent p) (filterButtons p)
    t (errorMessage_display p).

Definition set_errorMessage_display (d : jsstring) (p : Page) : Page :=
  mkPage (opportunities p) (currentFilter p) (localStorage p)
    (titleInput_value p) (typeInput_value p) (availableList p) (savedList p)
    (counterSpan_textContent p) (filterButtons p)
    (errorMessage_textContent p) d.

(* ================================================================== *)
(** * app.js *)
(* ================================================================== *)

(** ** Setup and constants *)

Definition SID4 : jsstring := lit "8480".
Definition STORAGE_KEY : jsstring := lit "opportunityBoard-" ++ SID4.

(** The page when the script starts: [opportunities = []],
    [currentFilter = 'all'], nothing rendered; the storage area and the
    form controls are the browser's. *)
Definition start (storage : Storage) (titleValue typeValue : jsstring)
    (buttons : list filter_btn) (errorText errorDisplay : jsstring) : Page :=
  mkPage [] (lit "all") storage titleValue typeValue [] [] [] buttons
    errorText errorDisplay.

(** ** Utility functions *)

Definition showError (message : jsstring) (p : Page) : Page :=
  set_errorMessage_display (lit "block")
    (set_errorMessage_textContent message p).

Definition hideError (p : Page) : Page :=
  set_errorMessage_display (lit "none") p.

(** The markup of a text node, as the fragment serialisation algorithm
    writes it when [innerHTML] is read: the ampersand, the no-break space
    and the two angle brackets are replaced by character references. *)
Definition escape_unit (c : char16) : jsstring :=
  (if c =? 38 then lit "&amp;"
   else if c =? 160 then lit "&nbsp;"
   else if c =? 60 then lit "&lt;"
   else if c =? 62 then lit "&gt;"
   else [c])%N.

(** [escapeHTML(str)]: a fresh [p] with one text node holding [str]; its
    [innerHTML]. *)
Definition escapeHTML (str : jsstring) : jsstring :=
  flat_map escape_unit str.

(** ** Persistence *)

(** The quota of the storage area is not modelled: [setItem] succeeds. *)
Definition saveToStorage (p : Page) : Page :=
  set_localStorage
    (setItem STORAGE_KEY (JSON.stringify (opportunities p)) (localStorage p))
    p.

(** How a call that may throw ends.  [Untyped v]: the call assigned to
    [opportunities] the value [v], which is not an array of opportunity
    records; what the program does with such a value is outside this
    model, which types [opportunities] as a list of records. *)
Inductive completion :=
| Normal (p : Page)
| SyntaxError
| Untyped (v : JSON.json).

(** [if (storedData)] is false for [null] and for the empty string. *)
Definition loadFromStorage (p : Page) : completion :=
  match getItem STORAGE_KEY (localStorage p) with
  | None => Normal p
  | Some [] => Normal p
  | Some storedData =>
      match JSON.parse storedData with
      | None => SyntaxError
      | Some v =>
          match JSON.as_list v with
          | Some l => Normal (set_opportunities l p)
          | None => Untyped v
          end
      end
  end.

(** ** Rendering *)

Definition NL : jsstring := [10%N].

Definition createOpportunityCard (op : opportunity) : card :=
  let buttonText := if saved op then lit "Remove" else lit "Save" in
  let buttonClass :=
    if saved op then lit "card-action-btn remove-btn"
    else lit "card-action-btn save-btn" in
  mkCard (lit "opportunity-card") (Number_toString (id op))
    (NL ++ lit "        <h3>" ++ escapeHTML (title op) ++ lit "</h3>"
     ++ NL ++ lit "        <p class=" ++ [QUOTE] ++ lit "card-details"
     ++ [QUOTE] ++ lit ">Category: " ++ escapeHTML (category op) ++ lit "</p>"
     ++ NL ++ lit "        <button class=" ++ [QUOTE] ++ buttonClass
     ++ [QUOTE] ++ lit ">" ++ buttonText ++ lit "</button>"
     ++ NL ++ lit "    ").

Definition updateCounter (p : Page) : Page :=
  let savedCount := length (filter (fun op => saved op) (opportunities p)) in
  set_counter
    (Number_toString (Z.of_nat (length (opportunities p)))
     ++ lit " opportunities ("
     ++ Number_toString (Z.of_nat savedCount) ++ lit " saved)")
    p.

Definition updateActiveFilter (p : Page) : Page :=
  set_filterButtons
    (List.map
       (fun btn =>
          mkFilterBtn (dataset_filter btn)
            (str_eqb (dataset_filter btn) (currentFilter p)))
       (filterButtons p))
    p.

(** The callback of the first [filter] in [render]. *)
Definition matches_filter (currentFilter : jsstring) (op : opportunity) : bool :=
  if str_eqb currentFilter (lit "all") then true
  else str_eqb (category op) currentFilter.

(** The [for ... of] loop of [render]: each card is appended to one of
    the two containers. *)
Fixpoint render_cards (ops : list opportunity) (available saved_ : list card)
  : list card * list card :=
  match ops with
  | [] => (available, saved_)
  | op :: rest =>
      let cardElement := createOpportunityCard op in
      if saved op then render_cards rest available (saved_ ++ [cardElement])
      else render_cards rest (available ++ [cardElement]) saved_
  end.

Definition render (p : Page) : Page :=
  let filteredOpportunities :=
    filter (matches_filter (currentFilter p)) (opportunities p) in
  let (a, s) := render_cards filteredOpportunities [] [] in
  updateActiveFilter (updateCounter (set_lists a s p)).

Definition saveAndRender (p : Page) : Page :=
  render (saveToStorage p).

(** ** Main application logic *)

(** [now] is the value [Date.now()] returns during the call. *)
Definition handleAddOpportunity (now : Z) (p : Page) : Page :=
  let title := trim (titleInput_value p) in
  let type := typeInput_value p in
  match title with
  | [] => showError (lit "Opportunity title cannot be empty.") p
  | _ :: _ =>
      let p := hideError p in
      let newOpportunity := mkOpportunity now title type false in
      let p := set_opportunities (opportunities p ++ [newOpportunity]) p in
      let p := set_titleInput_value [] p in
      saveAndRender p
  end.

(** The assignment [opportunity.saved = !opportunity.saved] on the object
    [find] returned: the first element with that id, changed in place. *)
Fixpoint flip_found (i : Z) (l : list opportunity) : list opportunity :=
  match l with
  | [] => []
  | op :: rest =>
      if (id op =? i)%Z
      then mkOpportunity (id op) (title op) (category op) (negb (saved op)) :: rest
      else op :: flip_found i rest
  end.

Definition toggleSavedStatus (i : Z) (p : Page) : Page :=
  match find (fun op => (id op =? i)%Z) (opportunities p) with
  | Some _ => saveAndRender (set_opportunities (flip_found i (opportunities p)) p)
  | None => p
  end.

(** What the user does, as the three listeners of [setupEventListeners]
    see it, and what is typed into the form. *)
Inductive event :=
| ClickAdd (now : Z)
| ClickCardAction (c : card)
| ClickFilter (btn : filter_btn)
| InputTitle (v : jsstring)
| SelectType (v : jsstring).

(** The listener on [mainContent]: the id is read back from the card's
    [data-id]; with NaN, [find] matches no record. *)
Definition onCardAction (c : card) (p : Page) : Page :=
  match parseInt10 (dataset_id c) with
  | Some opportunityId => toggleSavedStatus opportunityId p
  | None => p
  end.

(** The listener on [filterContainer]. *)
Definition onFilter (btn : filter_btn) (p : Page) : Page :=
  render (set_currentFilter (dataset_filter btn) p).

Definition dispatch (e : event) (p : Page) : Page :=
  match e with
  | ClickAdd now => handleAddOpportunity now p
  | ClickCardAction c => onCardAction c p
  | ClickFilter btn => onFilter btn p
  | InputTitle v => set_titleInput_value v p
  | SelectType v => set_typeInput_value v p
  end.

(** The events of a session, oldest first. *)
Definition run (es : list event) (p : Page) : Page :=
  fold_left (fun p e => dispatch e p) es p.

(** [init]: [setupEventListeners] registers the listeners above and
    changes nothing else; an exception of [loadFromStorage] ends [init]
    before it. *)
Definition init (p : Page) : completion :=
  match loadFromStorage p with
  | Normal p' => Normal (render p')
  | SyntaxError => SyntaxError
  | Untyped v => Untyped v
  end.

(* ================================================================== *)
(** * Notions used in the statements *)
(* ================================================================== *)

(** ** Sublists *)

(** [sublist l1 l2]: [l1] is [l2] with some elements left out, the others
    in their original order. *)
Inductive sublist {A : Type} : list A -> list A -> Prop :=
| sublist_nil : sublist [] []
| sublist_skip x l1 l2 : sublist l1 l2 -> sublist l1 (x :: l2)
| sublist_keep x l1 l2 : sublist l1 l2 -> sublist (x :: l1) (x :: l2).

(** ** The view as a function of the list and the filter *)

Definition available_of (f : jsstring) (l : list opportunity) : list opportunity :=
  filter (fun op => negb (saved op)) (filter (matches_filter f) l).

Definition saved_of (f : jsstring) (l : list opportunity) : list opportunity :=
  filter (fun op => saved op) (filter (matches_filter f) l).

Definition counter_label (l : list opportunity) : jsstring :=
  Number_toString (Z.of_nat (length l)) ++ lit " opportunities ("
  ++ Number_toString (Z.of_nat (count_occ bool_dec (List.map saved l) true))
  ++ lit " saved)".

(** ** Persisted snapshot, view and list in agreement *)

(** The value stored under the key is the serialisation of the list, and
    the two containers and the counter are what [render] derives from the
    list and the filter. *)
Definition in_sync (p : Page) : Prop :=
  getItem STORAGE_KEY (localStorage p)
  = Some (JSON.stringify (opportunities p))
  /\ availableList p
     = List.map createOpportunityCard
         (available_of (currentFilter p) (opportunities p))
  /\ savedList p
     = List.map createOpportunityCard
         (saved_of (currentFilter p) (opportunities p))
  /\ counterSpan_textContent p = counter_label (opportunities p).

(** ** The error indicator *)

Definition error_indicator (p : Page) : jsstring * jsstring :=
  (errorMessage_display p, errorMessage_textContent p).

Definition is_add (e : event) : bool :=
  match e with
  | ClickAdd _ => true
  | _ => false
  end.

(** ** Sessions *)

(** The pages a session can show: [init] returned, then any events. *)
Inductive reachable : Page -> Prop :=
| reach_init p0 p : init p0 = Normal p -> reachable p
| reach_step e p : reachable p -> reachable (dispatch e p).

(** The values [Date.now()] returned during the events [es] on the page
    [p], oldest first.  [handleAddOpportunity] reads the clock only after
    the title check, so a rejected add takes no reading. *)
Fixpoint clock_readings (es : list event) (p : Page) : list Z :=
  match es with
  | [] => []
  | e :: es' =>
      match e with
      | ClickAdd now =>
          match trim (titleInput_value p) with
          | [] => []
          | _ :: _ => [now]
          end
      | _ => []
      end ++ clock_readings es' (dispatch e p)
  end.

(** The record with its [saved] property negated. *)
Definition flipped (op : opportunity) : opportunity :=
  mkOpportunity (id op) (title op) (category op) (negb (saved op)).

(** ** Pages used as examples *)

(** A fresh page: nothing stored, empty form, the three filter buttons of
    the board, the error region as the style sheet leaves it. *)
Definition blank : Page :=
  start [] [] (lit "Internship")
    [mkFilterBtn (lit "all") true;
     mkFilterBtn (lit "Internship") false;
     mkFilterBtn (lit "Scholarship") false]
    [] [].

(** The blank page with [v] typed into the title field. *)
Definition typed (v : jsstring) : Page := set_titleInput_value v blank.

(** A page that shows one record, with id 42 and not saved. *)
Definition one_record : Page :=
  run [InputTitle (lit "Summer Internship"); ClickAdd 42] blank.

(** ** Where a token ends *)

(** The text does not go on with a digit. *)
Definition no_digit_ahead (s : jsstring) : Prop :=
  match s with
  | [] => True
  | c :: _ => is_digit c = false
  end.

(** The text does not go on with a character that would continue a
    number: a digit, a full stop or an exponent mark. *)
Definition number_ends (s : jsstring) : Prop :=
  match s with
  | [] => True
  | c :: _ => is_digit c = false /\ c <> 46%N /\ c <> 101%N /\ c <> 69%N
  end.

(** One more code unit in front of a parsed string. *)
Definition cons_result (c : char16) (r : option (jsstring * jsstring))
  : option (jsstring * jsstring) :=
  match r with
  | Some (t, r') => Some (c :: t, r')
  | None => None
  end.


(** The blank page when the text [s] is what the storage area holds under
    the key. *)
Definition stored (s : jsstring) : Page :=
  set_localStorage [(STORAGE_KEY, s)] blank.

(** ** Markup as the HTML tokenizer reads it *)

(** The tokens of a fragment: the text of a tag between its angle
    brackets, or a run of character data with its character references
    replaced. *)
Inductive token :=
| Tag (t : jsstring)
| Text (t : jsstring).

Definition starts_LF (s : jsstring) : bool :=
  match s with
  | c :: _ => (c =? 10)%N
  | [] => false
  end.

(** The input stream is preprocessed before it is tokenized: a carriage
    return followed by a line feed is dropped, any other carriage return
    becomes a line feed. *)
Fixpoint normalize_newlines (s : jsstring) : jsstring :=
  match s with
  | [] => []
  | c :: r =>
      if (c =? 13)%N then
        if starts_LF r then normalize_newlines r
        else 10%N :: normalize_newlines r
      else c :: normalize_newlines r
  end.

(** The data state and the tag states of the tokenizer, as far as the
    markup of a card needs them.  In data, a less-than sign opens a tag
    and an ampersand starts a character reference; the references that
    escaping writes are known, any other is outside the model ([None]);
    a NUL is a character token that the tree builder ignores in body
    content, so it adds nothing to the text.  In a tag, everything up to
    the greater-than sign belongs to the tag (the attribute values of the
    card hold no such sign), with U+FFFD for a NUL.  [cur] is the token
    being read. *)
Fixpoint tokens_from (in_tag : bool) (cur : jsstring) (s : jsstring)
  : option (list token) :=
  match s with
  | [] => if in_tag then None else Some [Text cur]
  | c :: r =>
      if in_tag then
        if (c =? 62)%N
        then option_map (cons (Tag cur)) (tokens_from false [] r)
        else if (c =? 0)%N then tokens_from true (cur ++ [65533%N]) r
        else tokens_from true (cur ++ [c]) r
      else if (c =? 60)%N
      then option_map (cons (Text cur)) (tokens_from true [] r)
      else if (c =? 38)%N then
        match r with
        | 97%N :: 109%N :: 112%N :: 59%N :: r' =>
            tokens_from false (cur ++ [38%N]) r'
        | 108%N :: 116%N :: 59%N :: r' =>
            tokens_from false (cur ++ [60%N]) r'
        | 103%N :: 116%N :: 59%N :: r' =>
            tokens_from false (cur ++ [62%N]) r'
        | 110%N :: 98%N :: 115%N :: 112%N :: 59%N :: r' =>
            tokens_from false (cur ++ [160%N]) r'
        | _ => None
        end
      else if (c =? 0)%N then tokens_from false cur r
      else tokens_from false (cur ++ [c]) r
  end.

(** The tokens of the markup assigned to the [innerHTML] of an element
    with body content. *)
Definition tokens (s : jsstring) : option (list token) :=
  tokens_from false [] (normalize_newlines s).

(** The text a text node holds after the markup of the string [s],
    escaped, has been parsed: newlines normalised, NUL left out. *)
Definition html_text (s : jsstring) : jsstring :=
  filter (fun c => negb (c =? 0)%N) (normalize_newlines s).

(** White space of the template between the elements of a card. *)
Definition indent8 : jsstring := NL ++ lit "        ".
Definition indent4 : jsstring := NL ++ lit "    ".

(* ================================================================== *)
(** * Basic facts *)
(* ================================================================== *)

Lemma str_eqb_eq (a b : jsstring) : str_eqb a b = true <-> a = b.
Proof.
  revert b; induction a as [|x a IH]; intros [|y b]; simpl;
    try (split; [discriminate|discriminate]); [tauto|].
  rewrite andb_true_iff, N.eqb_eq, IH.
  split; [intros [-> ->]; reflexivity | intros H; inversion H; auto].
Qed.

Lemma str_eqb_refl (a : jsstring) : str_eqb a a = true.
Proof. apply str_eqb_eq; reflexivity. Qed.

Lemma str_eqb_neq (a b : jsstring) : str_eqb a b = false <-> a <> b.
Proof.
  rewrite <- str_eqb_eq. destruct (str_eqb a b); split; congruence.
Qed.

Lemma getItem_setItem (k v : jsstring) (s : Storage) :
  getItem k (setItem k v s) = Some v.
Proof.
  induction s as [|[k' v'] s IH]; simpl.
  - rewrite str_eqb_refl; reflexivity.
  - destruct (str_eqb k' k) eqn:E; simpl; rewrite E; auto.
Qed.

Lemma getItem_setItem_other (k k' v : jsstring) (s : Storage) :
  k' <> k -> getItem k' (setItem k v s) = getItem k' s.
Proof.
  intros Hk. induction s as [|[k0 v0] s IH]; simpl.
  - apply str_eqb_neq in Hk. destruct (str_eqb k k') eqn:E; [|reflexivity].
    apply str_eqb_eq in E. apply str_eqb_neq in Hk. congruence.
  - destruct (str_eqb k0 k) eqn:E; simpl.
    + destruct (str_eqb k0 k') eqn:E'; [|reflexivity].
      apply str_eqb_eq in E, E'. congruence.
    + rewrite IH; reflexivity.
Qed.


#[local] Hint Constructors sublist : core.

Lemma sublist_refl {A} (l : list A) : sublist l l.
Proof. induction l; auto. Qed.

Lemma sublist_filter {A} (f : A -> bool) (l : list A) : sublist (filter f l) l.
Proof. induction l as [|x l IH]; simpl; [auto|destruct (f x); auto]. Qed.

Lemma sublist_In {A} (l1 l2 : list A) x : sublist l1 l2 -> In x l1 -> In x l2.
Proof. induction 1; simpl; intuition. Qed.

Lemma sublist_nil_l {A} (l : list A) : sublist [] l.
Proof. induction l; auto. Qed.

Lemma sublist_app {A} (a1 a2 b1 b2 : list A) :
  sublist a1 a2 -> sublist b1 b2 -> sublist (a1 ++ b1) (a2 ++ b2).
Proof. induction 1; simpl; auto. Qed.

Lemma sublist_trans {A} (l1 l2 l3 : list A) :
  sublist l1 l2 -> sublist l2 l3 -> sublist l1 l3.
Proof.
  intros H12 H23; revert l1 H12.
  induction H23; intros l0 H12; auto.
  inversion H12; subst; auto.
Qed.

Lemma StronglySorted_sublist {A} (R : A -> A -> Prop) (l1 l2 : list A) :
  sublist l1 l2 -> StronglySorted R l2 -> StronglySorted R l1.
Proof.
  induction 1; intros HS; auto.
  - inversion HS; auto.
  - inversion HS; subst. constructor; auto.
    rewrite Forall_forall in *. eauto using sublist_In.
Qed.


Lemma render_cards_spec (ops : list opportunity) (a s : list card) :
  render_cards ops a s =
  (a ++ List.map createOpportunityCard (filter (fun op => negb (saved op)) ops),
   s ++ List.map createOpportunityCard (filter (fun op => saved op) ops)).
Proof.
  revert a s; induction ops as [|op ops IH]; intros a s; simpl.
  - rewrite !app_nil_r; reflexivity.
  - destruct (saved op); simpl; rewrite IH, <- app_assoc; reflexivity.
Qed.

Lemma count_saved (l : list opportunity) :
  length (filter (fun op => saved op) l)
  = count_occ bool_dec (List.map saved l) true.
Proof.
  induction l as [|op l IH]; simpl; [reflexivity|].
  destruct (saved op); simpl.
  - destruct (bool_dec true true); [simpl; congruence|congruence].
  - destruct (bool_dec false true); [discriminate|assumption].
Qed.

(** What [render] writes and what it leaves alone. *)
Lemma render_fields (p : Page) :
  opportunities (render p) = opportunities p
  /\ currentFilter (render p) = currentFilter p
  /\ localStorage (render p) = localStorage p
  /\ titleInput_value (render p) = titleInput_value p
  /\ typeInput_value (render p) = typeInput_value p
  /\ availableList (render p)
     = List.map createOpportunityCard
         (available_of (currentFilter p) (opportunities p))
  /\ savedList (render p)
     = List.map createOpportunityCard
         (saved_of (currentFilter p) (opportunities p))
  /\ counterSpan_textContent (render p) = counter_label (opportunities p)
  /\ errorMessage_textContent (render p) = errorMessage_textContent p
  /\ errorMessage_display (render p) = errorMessage_display p.
Proof.
  unfold render. rewrite render_cards_spec. simpl.
  unfold counter_label. rewrite count_saved. repeat split; reflexivity.
Qed.


Lemma saveAndRender_fields (p : Page) :
  opportunities (saveAndRender p) = opportunities p
  /\ currentFilter (saveAndRender p) = currentFilter p
  /\ localStorage (saveAndRender p)
     = setItem STORAGE_KEY (JSON.stringify (opportunities p)) (localStorage p)
  /\ titleInput_value (saveAndRender p) = titleInput_value p
  /\ typeInput_value (saveAndRender p) = typeInput_value p
  /\ error_indicator (saveAndRender p) = error_indicator p.
Proof.
  unfold saveAndRender, error_indicator.
  destruct (render_fields (saveToStorage p))
    as (-> & -> & -> & -> & -> & _ & _ & _ & -> & ->).
  repeat split; reflexivity.
Qed.

(** Saving touches the one key of the program. *)
Lemma saveToStorage_other_keys (p : Page) (k : jsstring) :
  k <> STORAGE_KEY ->
  getItem k (localStorage (saveToStorage p)) = getItem k (localStorage p).
Proof. intros Hk. simpl. apply getItem_setItem_other, Hk. Qed.

Lemma saveAndRender_in_sync (p : Page) : in_sync (saveAndRender p).
Proof.
  destruct (saveAndRender_fields p) as (Ho & Hf & Hs & _).
  unfold in_sync. rewrite Ho, Hf, Hs, getItem_setItem.
  unfold saveAndRender.
  destruct (render_fields (saveToStorage p))
    as (_ & _ & _ & _ & _ & -> & -> & -> & _).
  repeat split; reflexivity.
Qed.

Lemma render_in_sync (p : Page) :
  getItem STORAGE_KEY (localStorage p) = Some (JSON.stringify (opportunities p)) ->
  in_sync (render p).
Proof.
  intros H. unfold in_sync.
  destruct (render_fields p) as (-> & -> & -> & _ & _ & -> & -> & -> & _).
  repeat split; auto.
Qed.

(** ** [handleAddOpportunity] *)

Lemma handleAdd_rejected (now : Z) (p : Page) :
  trim (titleInput_value p) = [] ->
  handleAddOpportunity now p
  = showError (lit "Opportunity title cannot be empty.") p.
Proof. unfold handleAddOpportunity. intros ->. reflexivity. Qed.

Lemma handleAdd_accepted (now : Z) (p : Page) :
  trim (titleInput_value p) <> [] ->
  handleAddOpportunity now p
  = saveAndRender
      (set_titleInput_value []
         (set_opportunities
            (opportunities p
             ++ [mkOpportunity now (trim (titleInput_value p))
                   (typeInput_value p) false])
            (hideError p))).
Proof.
  unfold handleAddOpportunity. intros H.
  destruct (trim (titleInput_value p)) eqn:E; [congruence|reflexivity].
Qed.

Lemma handleAdd_accepted_display (now : Z) (p : Page) :
  trim (titleInput_value p) <> [] ->
  errorMessage_display (handleAddOpportunity now p) = lit "none".
Proof.
  intros H. rewrite handleAdd_accepted by assumption.
  match goal with
  | |- errorMessage_display (saveAndRender ?q) = _ =>
      pose proof (proj2 (proj2 (proj2 (proj2 (proj2
                    (saveAndRender_fields q)))))) as He
  end.
  unfold error_indicator in He. injection He as Hd _. exact Hd.
Qed.

Lemma handleAdd_in_sync (now : Z) (p : Page) :
  in_sync p -> in_sync (handleAddOpportunity now p).
Proof.
  intros H. destruct (trim (titleInput_value p)) eqn:E.
  - rewrite handleAdd_rejected by assumption. exact H.
  - rewrite handleAdd_accepted by congruence. apply saveAndRender_in_sync.
Qed.

(** ** [toggleSavedStatus] *)

Lemma find_id_none (i : Z) (l : list opportunity) :
  find (fun op => (id op =? i)%Z) l = None <->
  (forall op, In op l -> id op <> i).
Proof.
  induction l as [|x l IH]; simpl.
  - split; [intros _ op []|reflexivity].
  - destruct (Z.eqb_spec (id x) i) as [E|E].
    + split; [discriminate|]. intros H. exfalso. apply (H x); auto.
    + rewrite IH. split.
      * intros H op [<-|Hin]; auto.
      * intros H op Hin. apply H; auto.
Qed.

Lemma flip_found_split (i : Z) (l : list opportunity) (op : opportunity) :
  find (fun o => (id o =? i)%Z) l = Some op ->
  exists l1 l2,
    l = l1 ++ op :: l2
    /\ (forall x, In x l1 -> id x <> i)
    /\ id op = i
    /\ flip_found i l = l1 ++ flipped op :: l2.
Proof.
  induction l as [|x l IH]; simpl; [discriminate|].
  destruct (Z.eqb_spec (id x) i) as [E|E].
  - intros [= <-]. exists [], l. simpl. repeat split; auto; intros ? [].
  - intros H. destruct (IH H) as (l1 & l2 & -> & Hl1 & Hid & Hf).
    exists (x :: l1), l2. simpl. rewrite Hf. repeat split; auto.
    intros y [<-|Hy]; auto.
Qed.

Lemma flip_found_twice (i : Z) (l : list opportunity) :
  flip_found i (flip_found i l) = l.
Proof.
  induction l as [|x l IH]; simpl; [reflexivity|].
  destruct (Z.eqb_spec (id x) i) as [E|E]; simpl.
  - destruct (Z.eqb_spec (id x) i); [|contradiction].
    rewrite negb_involutive. destruct x; reflexivity.
  - destruct (Z.eqb_spec (id x) i); [contradiction|]. rewrite IH; reflexivity.
Qed.

Lemma flip_found_ids (i : Z) (l : list opportunity) :
  List.map id (flip_found i l) = List.map id l.
Proof.
  induction l as [|x l IH]; simpl; [reflexivity|].
  destruct (id x =? i)%Z; simpl; congruence.
Qed.

Lemma find_flip_found (i : Z) (l : list opportunity) :
  find (fun o => (id o =? i)%Z) l <> None ->
  find (fun o => (id o =? i)%Z) (flip_found i l) <> None.
Proof.
  induction l as [|x l IH]; simpl; [auto|].
  destruct (id x =? i)%Z eqn:E; simpl; rewrite E; [discriminate|auto].
Qed.

Lemma toggle_present (i : Z) (p : Page) :
  find (fun o => (id o =? i)%Z) (opportunities p) <> None ->
  toggleSavedStatus i p
  = saveAndRender (set_opportunities (flip_found i (opportunities p)) p).
Proof.
  unfold toggleSavedStatus.
  destruct (find _ (opportunities p)); [reflexivity|congruence].
Qed.

Lemma toggle_absent (i : Z) (p : Page) :
  find (fun o => (id o =? i)%Z) (opportunities p) = None ->
  toggleSavedStatus i p = p.
Proof. unfold toggleSavedStatus. intros ->. reflexivity. Qed.

Lemma toggle_in_sync (i : Z) (p : Page) :
  in_sync p -> in_sync (toggleSavedStatus i p).
Proof.
  intros H. unfold toggleSavedStatus.
  destruct (find _ (opportunities p)); [apply saveAndRender_in_sync|exact H].
Qed.

Lemma toggle_ids (i : Z) (p : Page) :
  List.map id (opportunities (toggleSavedStatus i p))
  = List.map id (opportunities p).
Proof.
  unfold toggleSavedStatus.
  destruct (find _ (opportunities p)); [|reflexivity].
  rewrite (proj1 (saveAndRender_fields _)). simpl. apply flip_found_ids.
Qed.

Lemma toggle_error (i : Z) (p : Page) :
  error_indicator (toggleSavedStatus i p) = error_indicator p.
Proof.
  unfold toggleSavedStatus.
  destruct (find _ (opportunities p)); [|reflexivity].
  rewrite (proj2 (proj2 (proj2 (proj2 (proj2 (saveAndRender_fields _)))))).
  reflexivity.
Qed.

Lemma onFilter_error (btn : filter_btn) (p : Page) :
  error_indicator (onFilter btn p) = error_indicator p.
Proof.
  unfold onFilter, error_indicator.
  destruct (render_fields (set_currentFilter (dataset_filter btn) p))
    as (_ & _ & _ & _ & _ & _ & _ & _ & -> & ->).
  reflexivity.
Qed.

Lemma dispatch_in_sync (e : event) (p : Page) :
  in_sync p -> in_sync (dispatch e p).
Proof.
  intros H. destruct e as [now|c|btn|v|v]; simpl.
  - apply handleAdd_in_sync; assumption.
  - unfold onCardAction. destruct (parseInt10 (dataset_id c));
      [apply toggle_in_sync|]; assumption.
  - unfold onFilter. apply render_in_sync. simpl. apply H.
  - exact H.
  - exact H.
Qed.

Lemma run_in_sync (es : list event) (p : Page) :
  in_sync p -> in_sync (run es p).
Proof.
  unfold run. revert p. induction es as [|e es IH]; intros p H; simpl; auto.
  apply IH, dispatch_in_sync, H.
Qed.

Lemma dispatch_error (e : event) (p : Page) :
  is_add e = false -> error_indicator (dispatch e p) = error_indicator p.
Proof.
  destruct e as [now|c|btn|v|v]; simpl; intros He; try discriminate.
  - unfold onCardAction. destruct (parseInt10 (dataset_id c));
      [apply toggle_error|reflexivity].
  - apply onFilter_error.
  - reflexivity.
  - reflexivity.
Qed.

Lemma run_error (es : list event) (p : Page) :
  forallb (fun e => negb (is_add e)) es = true ->
  error_indicator (run es p) = error_indicator p.
Proof.
  unfold run. revert p. induction es as [|e es IH]; intros p H; simpl; auto.
  simpl in H. apply andb_true_iff in H. destruct H as [He Hes].
  rewrite IH by assumption. apply dispatch_error.
  destruct (is_add e); [discriminate|reflexivity].
Qed.

(* ================================================================== *)
(** * The synchronisation of list, snapshot and view *)
(* ================================================================== *)

Lemma present_find (i : Z) (l : list opportunity) (op : opportunity) :
  In op l -> id op = i -> find (fun o => (id o =? i)%Z) l <> None.
Proof.
  intros Hin Hid H. rewrite find_id_none in H. exact (H op Hin Hid).
Qed.

(** C1.  After a successful mutating operation (an add with a non-empty
    trimmed title, a toggle of an id that is present) the value stored
    under the storage key is the serialisation of the list in memory and
    the rendered containers and counter are those of that list; this
    stays so after any further events.  [saveAndRender] persists first and
    renders second, and neither step undoes the other. *)
Theorem mutation_persisted_and_rendered (p : Page) :
  (forall now es,
      trim (titleInput_value p) <> [] ->
      in_sync (run es (handleAddOpportunity now p)))
  /\ (forall i op es,
         In op (opportunities p) -> id op = i ->
         in_sync (run es (toggleSavedStatus i p)))
  /\ saveAndRender p = render (saveToStorage p)
  /\ getItem STORAGE_KEY (localStorage (saveToStorage p))
     = Some (JSON.stringify (opportunities p))
  /\ localStorage (render (saveToStorage p)) = localStorage (saveToStorage p)
  /\ opportunities (render (saveToStorage p)) = opportunities p.
Proof.
  split; [|split; [|split; [|split; [|split]]]].
  - intros now es H. apply run_in_sync.
    rewrite handleAdd_accepted by assumption. apply saveAndRender_in_sync.
  - intros i op es Hin Hid. apply run_in_sync.
    rewrite toggle_present by eauto using present_find.
    apply saveAndRender_in_sync.
  - reflexivity.
  - simpl. apply getItem_setItem.
  - apply render_fields.
  - rewrite (proj1 (render_fields _)). reflexivity.
Qed.

Lemma mutation_persisted_and_rendered_witness :
  trim (titleInput_value (typed (lit "Grant"))) <> []
  /\ in_sync (run [ClickFilter (mkFilterBtn (lit "Scholarship") false)]
                (handleAddOpportunity 7 (typed (lit "Grant"))))
  /\ In (mkOpportunity 42 (lit "Summer Internship") (lit "Internship") false)
        (opportunities one_record)
  /\ in_sync (run [] (toggleSavedStatus 42 one_record)).
Proof.
  split; [discriminate|]. split.
  - apply (proj1 (mutation_persisted_and_rendered (typed (lit "Grant")))).
    discriminate.
  - split; [left; reflexivity|].
    apply (proj1 (proj2 (mutation_persisted_and_rendered one_record))
             42%Z (mkOpportunity 42 (lit "Summer Internship") (lit "Internship") false)).
    + left; reflexivity.
    + reflexivity.
Defined.

(* ================================================================== *)
(** * Adding *)
(* ================================================================== *)

(** C3.  When the trimmed title is empty the add is rejected: list,
    storage area and rendered containers are what they were and the error
    region shows the validation message.  Otherwise exactly one record is
    appended, with the clock reading as id, the trimmed title, the
    selected category and [saved = false]; the list is persisted, the
    containers and the counter are rebuilt from it and the error region is
    hidden. *)
Theorem add_validation (now : Z) (p : Page) :
  let p' := handleAddOpportunity now p in
  (trim (titleInput_value p) = [] ->
     opportunities p' = opportunities p
     /\ localStorage p' = localStorage p
     /\ availableList p' = availableList p
     /\ savedList p' = savedList p
     /\ counterSpan_textContent p' = counterSpan_textContent p
     /\ errorMessage_display p' = lit "block"
     /\ errorMessage_textContent p' = lit "Opportunity title cannot be empty.")
  /\ (trim (titleInput_value p) <> [] ->
        opportunities p'
        = opportunities p
          ++ [mkOpportunity now (trim (titleInput_value p))
                (typeInput_value p) false]
        /\ in_sync p'
        /\ errorMessage_display p' = lit "none").
Proof.
  simpl. split; intros H.
  - rewrite handleAdd_rejected by assumption. repeat split; reflexivity.
  - rewrite handleAdd_accepted by assumption.
    split; [|split].
    + rewrite (proj1 (saveAndRender_fields _)). reflexivity.
    + apply saveAndRender_in_sync.
    + rewrite <- (handleAdd_accepted now p H).
      apply handleAdd_accepted_display, H.
Qed.

Lemma add_validation_witness :
  (trim (titleInput_value (typed (lit "   "))) = []
   /\ opportunities (handleAddOpportunity 5 (typed (lit "   "))) = []
   /\ errorMessage_display (handleAddOpportunity 5 (typed (lit "   ")))
      = lit "block")
  /\ (trim (titleInput_value (typed (lit " Summer Internship "))) <> []
      /\ opportunities (handleAddOpportunity 5 (typed (lit " Summer Internship ")))
         = [mkOpportunity 5 (lit "Summer Internship") (lit "Internship") false]
      /\ errorMessage_display
           (handleAddOpportunity 5 (typed (lit " Summer Internship ")))
         = lit "none").
Proof.
  split.
  - split; [reflexivity|].
    destruct (proj1 (add_validation 5 (typed (lit "   "))) eq_refl)
      as (H1 & _ & _ & _ & _ & H2 & _).
    split; [exact H1|exact H2].
  - split; [discriminate|].
    destruct (proj2 (add_validation 5 (typed (lit " Summer Internship "))))
      as (H1 & _ & H2); [discriminate|].
    split; [exact H1|exact H2].
Defined.

(* ================================================================== *)
(** * Toggling *)
(* ================================================================== *)

(** C4.  When a record with the id is present, the first such record has
    its [saved] flag negated, in place, and the list is persisted and
    rendered again.  When no record has the id the page is left exactly as
    it was.  Toggling the same id twice gives back the original list. *)
Theorem toggleSaved_semantics (i : Z) (p : Page) :
  (forall op0,
      In op0 (opportunities p) -> id op0 = i ->
      exists l1 op l2,
        opportunities p = l1 ++ op :: l2
        /\ (forall x, In x l1 -> id x <> i)
        /\ id op = i
        /\ opportunities (toggleSavedStatus i p) = l1 ++ flipped op :: l2
        /\ saved (flipped op) = negb (saved op)
        /\ in_sync (toggleSavedStatus i p))
  /\ ((forall op, In op (opportunities p) -> id op <> i) ->
      toggleSavedStatus i p = p)
  /\ opportunities (toggleSavedStatus i (toggleSavedStatus i p))
     = opportunities p.
Proof.
  split; [|split].
  - intros op0 Hin Hid.
    pose proof (present_find _ _ _ Hin Hid) as Hf.
    destruct (find (fun o => (id o =? i)%Z) (opportunities p)) as [op|] eqn:E;
      [|congruence].
    destruct (flip_found_split _ _ _ E) as (l1 & l2 & Hl & Hl1 & Hop & Hfl).
    exists l1, op, l2. rewrite toggle_present by congruence.
    rewrite (proj1 (saveAndRender_fields _)). simpl.
    repeat (split; [solve [auto]|]). apply saveAndRender_in_sync.
  - intros H. apply toggle_absent. apply find_id_none. exact H.
  - destruct (find (fun o => (id o =? i)%Z) (opportunities p)) eqn:E.
    + assert (Hp : find (fun o => (id o =? i)%Z) (opportunities p) <> None)
        by congruence.
      rewrite (toggle_present _ _ Hp).
      rewrite toggle_present.
      * rewrite !(proj1 (saveAndRender_fields _)). simpl.
        apply flip_found_twice.
      * rewrite (proj1 (saveAndRender_fields _)). simpl.
        apply find_flip_found, Hp.
    + rewrite !toggle_absent; auto; rewrite !toggle_absent; auto.
Qed.

Lemma toggleSaved_semantics_witness :
  (In (mkOpportunity 42 (lit "Summer Internship") (lit "Internship") false)
      (opportunities one_record)
   /\ exists l1 op l2,
        opportunities one_record = l1 ++ op :: l2
        /\ (forall x, In x l1 -> id x <> 42%Z)
        /\ id op = 42%Z
        /\ opportunities (toggleSavedStatus 42 one_record) = l1 ++ flipped op :: l2
        /\ saved (flipped op) = negb (saved op)
        /\ in_sync (toggleSavedStatus 42 one_record))
  /\ ((forall op, In op (opportunities one_record) -> id op <> 999%Z)
      /\ toggleSavedStatus 999 one_record = one_record).
Proof.
  split.
  - split; [left; reflexivity|].
    apply (proj1 (toggleSaved_semantics 42 one_record)
             (mkOpportunity 42 (lit "Summer Internship") (lit "Internship") false)).
    + left; reflexivity.
    + reflexivity.
  - assert (H : forall op, In op (opportunities one_record) -> id op <> 999%Z).
    { intros op [<-|[]]. discriminate. }
    split; [exact H|].
    apply (proj1 (proj2 (toggleSaved_semantics 999 one_record)) H).
Defined.

(* ================================================================== *)
(** * Rendering *)
(* ================================================================== *)

Lemma matches_filter_spec (f : jsstring) (op : opportunity) :
  matches_filter f op = true <-> f = lit "all" \/ category op = f.
Proof.
  unfold matches_filter. destruct (str_eqb f (lit "all")) eqn:E.
  - apply str_eqb_eq in E. tauto.
  - apply str_eqb_neq in E. rewrite str_eqb_eq. tauto.
Qed.

Lemma filter_split_perm {A} (f : A -> bool) (l : list A) :
  Permutation (filter (fun x => negb (f x)) l ++ filter f l) l.
Proof.
  induction l as [|x l IH]; simpl; [constructor|].
  destruct (f x); simpl.
  - symmetry. apply Permutation_cons_app. symmetry. exact IH.
  - constructor. exact IH.
Qed.

(** C6.  [visible] holds exactly the records of the list whose category
    is the filter (every record when the filter is [all]), in list order.
    The available container receives the cards of the visible records
    that are not saved, the saved container those of the visible records
    that are saved, each in the order of [visible]; no record is in both
    parts, and together the parts are [visible]. *)
Theorem render_partition (p : Page) :
  let visible := filter (matches_filter (currentFilter p)) (opportunities p) in
  let availableCards := filter (fun op => negb (saved op)) visible in
  let savedCards := filter (fun op => saved op) visible in
  (forall op,
      In op visible <->
      In op (opportunities p)
      /\ (currentFilter p = lit "all" \/ category op = currentFilter p))
  /\ sublist visible (opportunities p)
  /\ availableList (render p) = List.map createOpportunityCard availableCards
  /\ savedList (render p) = List.map createOpportunityCard savedCards
  /\ (forall op, In op availableCards <-> In op visible /\ saved op = false)
  /\ (forall op, In op savedCards <-> In op visible /\ saved op = true)
  /\ (forall op, ~ (In op availableCards /\ In op savedCards))
  /\ Permutation (availableCards ++ savedCards) visible
  /\ sublist availableCards visible
  /\ sublist savedCards visible.
Proof.
  intros visible availableCards savedCards.
  destruct (render_fields p) as (_ & _ & _ & _ & _ & Ha & Hs & _).
  split; [|split; [|split; [|split; [|split; [|split; [|split; [|split;
    [|split]]]]]]]].
  - intros op. unfold visible. rewrite filter_In, matches_filter_spec. tauto.
  - apply sublist_filter.
  - exact Ha.
  - exact Hs.
  - intros op. unfold availableCards. rewrite filter_In, negb_true_iff. tauto.
  - intros op. unfold savedCards. rewrite filter_In. tauto.
  - intros op [H1 H2]. unfold availableCards, savedCards in *.
    rewrite filter_In in H1, H2. rewrite negb_true_iff in H1.
    destruct H1 as [_ H1], H2 as [_ H2]. congruence.
  - apply filter_split_perm.
  - apply sublist_filter.
  - apply sublist_filter.
Qed.

(** Rendering twice in a row gives the page that rendering once gives:
    same containers, counter and button marks. *)
Lemma render_idempotent (p : Page) : render (render p) = render p.
Proof.
  unfold render. rewrite !render_cards_spec. simpl.
  unfold updateActiveFilter, updateCounter, set_filterButtons, set_counter.
  simpl. f_equal.
  rewrite map_map. apply map_ext. intros btn. reflexivity.
Qed.

(** The scenario of the specification: two adds, a toggle of the first
    record, then the filter set to its category. *)
Example scenario :
  let p :=
    run [InputTitle (lit "Research Grant"); SelectType (lit "Scholarship");
         ClickAdd 1000;
         InputTitle (lit "Fall Internship"); SelectType (lit "Internship");
         ClickAdd 1001;
         ClickCardAction
           (createOpportunityCard
              (mkOpportunity 1000 (lit "Research Grant") (lit "Scholarship")
                 false));
         ClickFilter (mkFilterBtn (lit "Scholarship") false)]
        blank in
  savedList p
  = [createOpportunityCard
       (mkOpportunity 1000 (lit "Research Grant") (lit "Scholarship") true)]
  /\ availableList p = []
  /\ counterSpan_textContent p = lit "2 opportunities (1 saved)".
Proof. vm_compute. repeat split; reflexivity. Qed.

(* ================================================================== *)
(** * The counter *)
(* ================================================================== *)

Lemma init_in_view (p0 p : Page) :
  init p0 = Normal p ->
  counterSpan_textContent p = counter_label (opportunities p).
Proof.
  unfold init. destruct (loadFromStorage p0) as [p'| |v]; try discriminate.
  intros [= <-].
  destruct (render_fields p') as (-> & _ & _ & _ & _ & _ & _ & -> & _).
  reflexivity.
Qed.

Lemma dispatch_counter (e : event) (p : Page) :
  counterSpan_textContent p = counter_label (opportunities p) ->
  counterSpan_textContent (dispatch e p)
  = counter_label (opportunities (dispatch e p)).
Proof.
  intros H.
  assert (Hr : forall q, counterSpan_textContent (render q)
                         = counter_label (opportunities (render q))).
  { intros q.
    destruct (render_fields q) as (-> & _ & _ & _ & _ & _ & _ & -> & _).
    reflexivity. }
  destruct e as [now|c|btn|v|v]; simpl; auto.
  - unfold handleAddOpportunity.
    destruct (trim (titleInput_value p)); [exact H|apply Hr].
  - unfold onCardAction, toggleSavedStatus.
    destruct (parseInt10 (dataset_id c)); [|exact H].
    destruct (find _ (opportunities p)); [apply Hr|exact H].
  - apply Hr.
Qed.

(** C7.  On every page of a session the counter reads
    "<n> opportunities (<k> saved)", where n is the length of the whole
    list and k the number of its records with [saved] true, both in
    decimal; [render] writes that label whatever the filter is. *)
Theorem counter_correct (p : Page) :
  reachable p ->
  counterSpan_textContent p
  = Number_toString (Z.of_nat (length (opportunities p)))
    ++ lit " opportunities ("
    ++ Number_toString
         (Z.of_nat (count_occ bool_dec (List.map saved (opportunities p)) true))
    ++ lit " saved)"
  /\ forall f,
       counterSpan_textContent (render (set_currentFilter f p))
       = counterSpan_textContent p.
Proof.
  intros Hr.
  assert (H : counterSpan_textContent p = counter_label (opportunities p)).
  { induction Hr as [p0 p Hi|e p Hp IH].
    - eapply init_in_view; eauto.
    - apply dispatch_counter, IH. }
  split; [exact H|].
  intros f. rewrite H.
  destruct (render_fields (set_currentFilter f p))
    as (_ & _ & _ & _ & _ & _ & _ & -> & _).
  reflexivity.
Qed.

Lemma counter_correct_witness :
  reachable (dispatch (ClickAdd 42)
               (dispatch (InputTitle (lit "Summer Internship")) (render blank)))
  /\ counterSpan_textContent
       (dispatch (ClickAdd 42)
          (dispatch (InputTitle (lit "Summer Internship")) (render blank)))
     = lit "1 opportunities (0 saved)".
Proof.
  assert (R : reachable
                (dispatch (ClickAdd 42)
                   (dispatch (InputTitle (lit "Summer Internship"))
                      (render blank)))).
  { apply reach_step, reach_step, (reach_init blank). reflexivity. }
  split; [exact R|].
  rewrite (proj1 (counter_correct _ R)). reflexivity.
Defined.

(* ================================================================== *)
(** * Ids *)
(* ================================================================== *)

Lemma dispatch_ids (e : event) (p : Page) :
  List.map id (opportunities (dispatch e p))
  = List.map id (opportunities p) ++ clock_readings [e] p.
Proof.
  cbn [clock_readings]. rewrite app_nil_r.
  destruct e as [now|c|btn|v|v]; simpl dispatch.
  - unfold handleAddOpportunity.
    destruct (trim (titleInput_value p)) eqn:E.
    + rewrite app_nil_r. reflexivity.
    + rewrite (proj1 (saveAndRender_fields _)). simpl.
      rewrite map_app. reflexivity.
  - rewrite app_nil_r.
    unfold onCardAction. destruct (parseInt10 (dataset_id c));
      [apply toggle_ids|reflexivity].
  - rewrite app_nil_r.
    unfold onFilter. rewrite (proj1 (render_fields _)). reflexivity.
  - rewrite app_nil_r. reflexivity.
  - rewrite app_nil_r. reflexivity.
Qed.

Lemma clock_readings_cons (e : event) (es : list event) (p : Page) :
  clock_readings (e :: es) p
  = clock_readings [e] p ++ clock_readings es (dispatch e p).
Proof. cbn [clock_readings]. rewrite app_nil_r. reflexivity. Qed.

Lemma run_ids (es : list event) (p : Page) :
  List.map id (opportunities (run es p))
  = List.map id (opportunities p) ++ clock_readings es p.
Proof.
  unfold run. revert p. induction es as [|e es IH]; intros p.
  - simpl. rewrite app_nil_r. reflexivity.
  - simpl fold_left. rewrite (clock_readings_cons e es p).
    rewrite IH, dispatch_ids, <- app_assoc. reflexivity.
Qed.

Lemma StronglySorted_lt_NoDup (l : list Z) :
  StronglySorted Z.lt l -> NoDup l.
Proof.
  induction 1 as [|x l HS IH HF]; constructor; auto.
  intros Hin. rewrite Forall_forall in HF. specialize (HF x Hin). lia.
Qed.

(** C8, as the code has it.  The id of a record is the clock reading of
    its add: an accepted add appends a record whose id is the value
    [Date.now()] returned, and after any events the ids of the list are
    the ids that were there followed by the readings taken, in order (a
    rejected add reads no clock).  When the readings are strictly
    increasing, and above the ids already in the list, the ids of the
    list are strictly increasing in list order, hence pairwise distinct;
    when a reading repeats an id or an earlier reading, two records share
    an id. *)
Theorem ids_increasing_with_clock (es : list event) (p : Page) :
  List.map id (opportunities (run es p))
  = List.map id (opportunities p) ++ clock_readings es p
  /\ (forall now,
         trim (titleInput_value p) <> [] ->
         List.map id (opportunities (handleAddOpportunity now p))
         = List.map id (opportunities p) ++ [now])
  /\ (StronglySorted Z.lt
        (List.map id (opportunities p) ++ clock_readings es p) ->
      StronglySorted Z.lt (List.map id (opportunities (run es p)))
      /\ NoDup (List.map id (opportunities (run es p))))
  /\ (~ NoDup (List.map id (opportunities p) ++ clock_readings es p) ->
      ~ NoDup (List.map id (opportunities (run es p)))).
Proof.
  split; [apply run_ids|]. split; [|split].
  - intros now H. rewrite handleAdd_accepted by assumption.
    rewrite (proj1 (saveAndRender_fields _)). simpl.
    rewrite map_app. reflexivity.
  - intros H. rewrite run_ids.
    split; [exact H|apply StronglySorted_lt_NoDup, H].
  - intros H. rewrite run_ids. exact H.
Qed.

Lemma ids_increasing_with_clock_witness :
  StronglySorted Z.lt
    (List.map id (opportunities blank)
     ++ clock_readings
          [InputTitle (lit "a"); ClickAdd 5; ClickAdd 9;
           InputTitle (lit "b"); ClickAdd 6] blank)
  /\ List.map id
       (opportunities
          (run [InputTitle (lit "a"); ClickAdd 5; ClickAdd 9;
                InputTitle (lit "b"); ClickAdd 6] blank))
     = [5%Z; 6%Z]
  /\ NoDup
       (List.map id
          (opportunities
             (run [InputTitle (lit "a"); ClickAdd 5; ClickAdd 9;
                   InputTitle (lit "b"); ClickAdd 6] blank)))
  /\ trim (titleInput_value (typed (lit "a"))) <> []
  /\ List.map id (opportunities (handleAddOpportunity 5 (typed (lit "a"))))
     = [5%Z]
  /\ ~ NoDup
       (List.map id (opportunities one_record)
        ++ clock_readings [InputTitle (lit "b"); ClickAdd 42] one_record)
  /\ ~ NoDup
       (List.map id
          (opportunities
             (run [InputTitle (lit "b"); ClickAdd 42] one_record))).
Proof.
  assert (H : StronglySorted Z.lt
                (List.map id (opportunities blank)
                 ++ clock_readings
                      [InputTitle (lit "a"); ClickAdd 5; ClickAdd 9;
                       InputTitle (lit "b"); ClickAdd 6] blank)).
  { vm_compute. repeat constructor. }
  assert (Ht : trim (titleInput_value (typed (lit "a"))) <> [])
    by discriminate.
  assert (Hd : ~ NoDup
                 (List.map id (opportunities one_record)
                  ++ clock_readings [InputTitle (lit "b"); ClickAdd 42]
                       one_record)).
  { vm_compute. intros Hn. inversion Hn as [|x l Hx _]. apply Hx.
    left. reflexivity. }
  destruct (ids_increasing_with_clock
              [InputTitle (lit "a"); ClickAdd 5; ClickAdd 9;
               InputTitle (lit "b"); ClickAdd 6] blank)
    as (H1 & _ & H3 & _).
  destruct (ids_increasing_with_clock [] (typed (lit "a")))
    as (_ & H2 & _).
  destruct (ids_increasing_with_clock
              [InputTitle (lit "b"); ClickAdd 42] one_record)
    as (_ & _ & _ & H4).
  split; [exact H|]. split; [rewrite H1; vm_compute; reflexivity|].
  split; [exact (proj2 (H3 H))|]. split; [exact Ht|].
  split; [exact (H2 5%Z Ht)|]. split; [exact Hd|exact (H4 Hd)].
Defined.

(** C8, as the specification states it, fails: two adds that read the
    same millisecond from the clock create two records with one id. *)
Lemma ids_not_unique :
  ~ NoDup
      (List.map id
         (opportunities
            (run [InputTitle (lit "a"); ClickAdd 5;
                  InputTitle (lit "b"); ClickAdd 5] blank))).
Proof.
  assert (E : List.map id
                (opportunities
                   (run [InputTitle (lit "a"); ClickAdd 5;
                         InputTitle (lit "b"); ClickAdd 5] blank))
              = [5%Z; 5%Z]) by (vm_compute; reflexivity).
  rewrite E. intros H. inversion H as [|x l Hn _]. apply Hn. left. reflexivity.
Qed.

(* ================================================================== *)
(** * The error indicator *)
(* ================================================================== *)

(** C10.  Toggling, changing the filter and typing leave the error
    region's [display] and text as they are: among the events only a click
    on the add button changes them.  A validation message therefore stays
    shown across any such events, and the next add with a non-empty
    trimmed title hides it. *)
Theorem error_indicator_frame :
  (forall i p, error_indicator (toggleSavedStatus i p) = error_indicator p)
  /\ (forall btn p, error_indicator (onFilter btn p) = error_indicator p)
  /\ (forall e p,
         is_add e = false ->
         error_indicator (dispatch e p) = error_indicator p)
  /\ (forall now es p,
         trim (titleInput_value p) = [] ->
         forallb (fun e => negb (is_add e)) es = true ->
         error_indicator (run es (handleAddOpportunity now p))
         = (lit "block", lit "Opportunity title cannot be empty."))
  /\ (forall now p,
         trim (titleInput_value p) <> [] ->
         errorMessage_display (handleAddOpportunity now p) = lit "none").
Proof.
  split; [|split; [|split; [|split]]].
  - apply toggle_error.
  - apply onFilter_error.
  - apply dispatch_error.
  - intros now es p Ht Hes. rewrite run_error by assumption.
    rewrite handleAdd_rejected by assumption. reflexivity.
  - intros now p Ht. apply handleAdd_accepted_display, Ht.
Qed.

Lemma error_indicator_frame_witness :
  (is_add (ClickFilter (mkFilterBtn (lit "Scholarship") false)) = false
   /\ error_indicator
        (dispatch (ClickFilter (mkFilterBtn (lit "Scholarship") false))
           one_record)
      = error_indicator one_record)
  /\ (trim (titleInput_value (typed (lit "  "))) = []
      /\ error_indicator
           (run [ClickFilter (mkFilterBtn (lit "Scholarship") false);
                 ClickCardAction
                   (createOpportunityCard (mkOpportunity 42 [] [] false));
                 InputTitle (lit "x")]
              (handleAddOpportunity 9 (typed (lit "  "))))
         = (lit "block", lit "Opportunity title cannot be empty."))
  /\ (trim (titleInput_value (typed (lit "x"))) <> []
      /\ errorMessage_display (handleAddOpportunity 9 (typed (lit "x")))
         = lit "none").
Proof.
  destruct error_indicator_frame as (_ & _ & H3 & H4 & H5).
  split; [|split].
  - split; [reflexivity|]. apply H3. reflexivity.
  - split; [reflexivity|]. apply H4; reflexivity.
  - split; [discriminate|]. apply H5. discriminate.
Defined.

(* ================================================================== *)
(** * Numbers in decimal *)
(* ================================================================== *)


Lemma digit_char_range (c : char16) :
  is_digit c = true <-> (48 <= c <= 57)%N.
Proof.
  unfold is_digit, digit_char.
  split.
  - intros H.
    destruct (N.eqb_spec c 48); [lia|]. destruct (N.eqb_spec c 49); [lia|].
    destruct (N.eqb_spec c 50); [lia|]. destruct (N.eqb_spec c 51); [lia|].
    destruct (N.eqb_spec c 52); [lia|]. destruct (N.eqb_spec c 53); [lia|].
    destruct (N.eqb_spec c 54); [lia|]. destruct (N.eqb_spec c 55); [lia|].
    destruct (N.eqb_spec c 56); [lia|]. destruct (N.eqb_spec c 57); [lia|].
    discriminate.
  - intros H.
    destruct (N.eqb_spec c 48); [reflexivity|].
    destruct (N.eqb_spec c 49); [reflexivity|].
    destruct (N.eqb_spec c 50); [reflexivity|].
    destruct (N.eqb_spec c 51); [reflexivity|].
    destruct (N.eqb_spec c 52); [reflexivity|].
    destruct (N.eqb_spec c 53); [reflexivity|].
    destruct (N.eqb_spec c 54); [reflexivity|].
    destruct (N.eqb_spec c 55); [reflexivity|].
    destruct (N.eqb_spec c 56); [reflexivity|].
    destruct (N.eqb_spec c 57); [reflexivity|].
    lia.
Qed.

Lemma not_digit_char (c : char16) :
  is_digit c = false -> digit_char c = None.
Proof. unfold is_digit. destruct (digit_char c); [discriminate|reflexivity]. Qed.

Lemma read_digits_no_digit (s : jsstring) :
  no_digit_ahead s -> read_digits s = (Nil, s).
Proof.
  destruct s as [|c r]; simpl; [reflexivity|].
  intros H. rewrite (not_digit_char _ H). reflexivity.
Qed.

Lemma read_digits_app (d : uint) (rest : jsstring) :
  no_digit_ahead rest -> read_digits (uint_chars d ++ rest) = (d, rest).
Proof.
  intros H. induction d; simpl;
    try (change (uint_chars d ++ rest) with (uint_chars d ++ rest);
         rewrite IHd; reflexivity).
  apply read_digits_no_digit, H.
Qed.

Lemma uint_chars_head (d : uint) :
  d <> Nil -> exists c t, uint_chars d = c :: t /\ is_digit c = true.
Proof.
  destruct d; [congruence| | | | | | | | | |]; intros _; simpl;
    eexists; eexists; (split; [reflexivity|reflexivity]).
Qed.

Lemma pos_to_uint_head (p : positive) :
  match Pos.to_uint p with
  | Nil => False
  | D0 _ => False
  | _ => True
  end.
Proof.
  pose proof (DecimalPos.Unsigned.to_uint_nonnil p) as Hnil.
  pose proof (DecimalPos.Unsigned.to_uint_nonzero p) as Hz.
  pose proof (DecimalPos.Unsigned.to_of (Pos.to_uint p)) as Hn.
  rewrite DecimalPos.Unsigned.of_to in Hn. simpl in Hn.
  destruct (Pos.to_uint p) as [|d'| | | | | | | | |] eqn:E; auto.
  rewrite unorm_D0 in Hn.
  destruct (nzhead d') eqn:En;
    [ apply unorm_0 in En; rewrite En in Hn; congruence
    | exfalso; eapply (nzhead_nonzero d'); exact En
    | rewrite unorm_nzhead in Hn by congruence;
      exfalso; eapply (nzhead_nonzero d'); symmetry; exact Hn .. ].
Qed.

Lemma number_ends_no_digit (s : jsstring) : number_ends s -> no_digit_ahead s.
Proof. destruct s; simpl; tauto. Qed.

Lemma is_digit_not_minus (c : char16) : is_digit c = true -> (c =? 45)%N = false.
Proof. rewrite digit_char_range. intros H. apply N.eqb_neq. lia. Qed.

(** A run of digits in normal form, then the end of the number. *)
Lemma parse_number_digits (neg : bool) (d : uint) (rest : jsstring) :
  match d with Nil => False | D0 Nil => True | D0 _ => False | _ => True end ->
  number_ends rest ->
  JSON.parse_number ((if neg then [45%N] else []) ++ uint_chars d ++ rest)
  = Some (JSON.mkDecimal
            (if neg then (- Z.of_N (N.of_uint d))%Z else Z.of_N (N.of_uint d))
            0,
          rest).
Proof.
  intros Hd Hrest.
  assert (Hnil : d <> Nil) by (destruct d; [contradiction|congruence..]).
  destruct (uint_chars_head d Hnil) as (c & t & Hc & Hdig).
  unfold JSON.parse_number.
  assert (Hs : (let (neg0, s1) :=
                  match (if neg then [45%N] else []) ++ uint_chars d ++ rest with
                  | [] => (false, (if neg then [45%N] else []) ++ uint_chars d ++ rest)
                  | c0 :: r => if (c0 =? 45)%N then (true, r)
                               else (false, (if neg then [45%N] else [])
                                            ++ uint_chars d ++ rest)
                  end in (neg0, s1)) = (neg, uint_chars d ++ rest)).
  { destruct neg; simpl; [reflexivity|].
    rewrite Hc. simpl. rewrite (is_digit_not_minus _ Hdig).
    reflexivity. }
  destruct (match (if neg then [45%N] else []) ++ uint_chars d ++ rest with
            | [] => _ | _ :: _ => _ end) as [neg0 s1].
  injection Hs as -> ->.
  rewrite (read_digits_app d rest (number_ends_no_digit _ Hrest)).
  assert (Hok : negb (match d with
                      | Nil => false | D0 Nil => true | D0 _ => false
                      | _ => true end) = false).
  { destruct d as [|d'| | | | | | | | |]; try reflexivity; try contradiction.
    destruct d'; try contradiction; reflexivity. }
  rewrite Hok.
  assert (Hfrac : match rest with
                  | [] => Some (Nil, rest)
                  | c0 :: r =>
                      if (c0 =? 46)%N
                      then match read_digits r with
                           | (Nil, _) => None
                           | (f, r') => Some (f, r')
                           end
                      else Some (Nil, rest)
                  end = Some (Nil, rest)).
  { destruct rest as [|c0 r]; [reflexivity|].
    simpl in Hrest. destruct Hrest as (_ & H46 & _).
    apply N.eqb_neq in H46. rewrite H46. reflexivity. }
  rewrite Hfrac.
  destruct rest as [|c0 r].
  - rewrite DecimalFacts.app_nil_r. simpl. reflexivity.
  - simpl in Hrest. destruct Hrest as (_ & _ & H101 & H69).
    apply N.eqb_neq in H101, H69. rewrite H101, H69. simpl.
    rewrite DecimalFacts.app_nil_r. reflexivity.
Qed.

Lemma parse_number_toString (z : Z) (rest : jsstring) :
  number_ends rest ->
  JSON.parse_number (Number_toString z ++ rest)
  = Some (JSON.mkDecimal z 0, rest).
Proof.
  intros Hrest. unfold Number_toString.
  assert (Hof : forall p, Z.of_N (N.of_uint (Pos.to_uint p)) = Z.pos p).
  { intros p. change (N.of_uint (Pos.to_uint p)) with (Pos.of_uint (Pos.to_uint p)).
    rewrite DecimalPos.Unsigned.of_to. reflexivity. }
  assert (Hnf : forall p,
             match Pos.to_uint p with
             | Nil => False | D0 Nil => True | D0 _ => False | _ => True
             end).
  { intros p. pose proof (pos_to_uint_head p).
    destruct (Pos.to_uint p); auto; contradiction. }
  destruct z as [|p|p]; simpl Z.to_int.
  - exact (parse_number_digits false (D0 Nil) rest I Hrest).
  - etransitivity;
      [exact (parse_number_digits false (Pos.to_uint p) rest (Hnf p) Hrest)|].
    cbv iota. rewrite Hof. reflexivity.
  - etransitivity;
      [exact (parse_number_digits true (Pos.to_uint p) rest (Hnf p) Hrest)|].
    cbv iota. rewrite Hof. reflexivity.
Qed.

(** [parseInt] reads back what [String] wrote. *)
Lemma parseInt10_toString (z : Z) : parseInt10 (Number_toString z) = Some z.
Proof.
  unfold parseInt10, Number_toString.
  assert (Hrd : forall d, read_digits (uint_chars d) = (d, [])).
  { intros d. rewrite <- (List.app_nil_r (uint_chars d)).
    apply read_digits_app. exact I. }
  assert (Hpos : forall d,
             d <> Nil ->
             trimStart (uint_chars d) = uint_chars d
             /\ (let (neg, s) :=
                   match uint_chars d with
                   | [] => (false, uint_chars d)
                   | c :: r => if (c =? 45)%N then (true, r)
                               else if (c =? 43)%N then (false, r)
                                    else (false, uint_chars d)
                   end in (neg, s)) = (false, uint_chars d)).
  { intros d Hd. destruct (uint_chars_head d Hd) as (c & t & -> & Hc).
    apply digit_char_range in Hc. simpl.
    assert (isWhiteSpace c = false).
    { unfold isWhiteSpace.
      repeat match goal with
      | |- context [N.eqb c ?k] => destruct (N.eqb_spec c k); [lia|]
      | |- context [N.leb ?a ?b] => destruct (N.leb_spec a b); try lia
      end; reflexivity. }
    rewrite H.
    destruct (N.eqb_spec c 45); [lia|]. destruct (N.eqb_spec c 43); [lia|].
    split; reflexivity. }
  destruct z as [|p|p]; simpl Z.to_int.
  - reflexivity.
  - pose proof (pos_to_uint_head p) as Hh.
    assert (Hn : Pos.to_uint p <> Nil)
      by (destruct (Pos.to_uint p); [contradiction|congruence..]).
    destruct (Hpos _ Hn) as [-> Hs].
    destruct (match uint_chars (Pos.to_uint p) with
              | [] => _ | _ :: _ => _ end) as [neg s].
    injection Hs as -> ->. rewrite Hrd.
    change (N.of_uint (Pos.to_uint p)) with (Pos.of_uint (Pos.to_uint p)).
    rewrite DecimalPos.Unsigned.of_to.
    destruct (Pos.to_uint p); [contradiction|reflexivity..].
  - pose proof (pos_to_uint_head p) as Hh.
    simpl. rewrite Hrd.
    change (N.of_uint (Pos.to_uint p)) with (Pos.of_uint (Pos.to_uint p)).
    rewrite DecimalPos.Unsigned.of_to.
    destruct (Pos.to_uint p); [contradiction|reflexivity..].
Qed.

(* ================================================================== *)
(** * JSON strings *)
(* ================================================================== *)

Ltac decide_N_tests :=
  repeat match goal with
  | |- context [N.eqb ?a ?b] =>
      destruct (N.eqb_spec a b); try lia
  | |- context [N.leb ?a ?b] =>
      destruct (N.leb_spec a b); try lia
  | |- context [N.ltb ?a ?b] =>
      destruct (N.ltb_spec a b); try lia
  end.

Lemma hex_val_hex_char (n : N) :
  (n < 16)%N -> JSON.hex_val (JSON.hex_char n) = Some n.
Proof.
  intros H. unfold JSON.hex_val, JSON.hex_char.
  destruct (N.ltb_spec n 10).
  - destruct (N.leb_spec 48 (48 + n)); [|lia].
    destruct (N.leb_spec (48 + n) 57); [|lia].
    cbv [andb]. f_equal. lia.
  - destruct (N.leb_spec 48 (87 + n)); [|lia].
    destruct (N.leb_spec (87 + n) 57); [lia|].
    destruct (N.leb_spec 97 (87 + n)); [|lia].
    destruct (N.leb_spec (87 + n) 102); [|lia].
    cbv [andb]. f_equal. lia.
Qed.

Lemma hex4_digits (c : char16) :
  (c < 65536)%N ->
  JSON.hex4 (JSON.hex_char ((c / 4096) mod 16))
            (JSON.hex_char ((c / 256) mod 16))
            (JSON.hex_char ((c / 16) mod 16))
            (JSON.hex_char (c mod 16))
  = Some c.
Proof.
  intros H. unfold JSON.hex4.
  rewrite !hex_val_hex_char by (apply N.mod_lt; discriminate).
  f_equal.
  zify. Z.to_euclidean_division_equations. lia.
Qed.

Lemma parse_string_escape (c : char16) (t : jsstring) :
  (c < 65536)%N ->
  JSON.parse_string_body (JSON.UnicodeEscape c ++ t)
  = cons_result c (JSON.parse_string_body t).
Proof.
  intros H. unfold JSON.UnicodeEscape. simpl.
  rewrite (hex4_digits _ H). reflexivity.
Qed.

Lemma parse_string_literal (c : char16) (t : jsstring) :
  c <> QUOTE -> c <> BACKSLASH -> (32 <= c)%N ->
  JSON.parse_string_body (c :: t) = cons_result c (JSON.parse_string_body t).
Proof.
  intros Hq Hb Hc. simpl.
  apply N.eqb_neq in Hq, Hb. rewrite Hq, Hb.
  destruct (N.ltb_spec c 32); [lia|]. reflexivity.
Qed.

Lemma parse_string_unit (c : char16) (t : jsstring) :
  JSON.parse_string_body (JSON.quote_unit c ++ t)
  = cons_result c (JSON.parse_string_body t).
Proof.
  unfold JSON.quote_unit.
  destruct (N.eqb_spec c 8); [subst; reflexivity|].
  destruct (N.eqb_spec c 9); [subst; reflexivity|].
  destruct (N.eqb_spec c 10); [subst; reflexivity|].
  destruct (N.eqb_spec c 12); [subst; reflexivity|].
  destruct (N.eqb_spec c 13); [subst; reflexivity|].
  destruct (N.eqb_spec c QUOTE); [subst; reflexivity|].
  destruct (N.eqb_spec c BACKSLASH); [subst; reflexivity|].
  destruct (N.ltb_spec c 32).
  - apply parse_string_escape. lia.
  - apply parse_string_literal; assumption.
Qed.

Lemma surrogate_literal (c : char16) :
  (55296 <= c)%N -> c <> QUOTE /\ c <> BACKSLASH /\ (32 <= c)%N.
Proof. unfold QUOTE, BACKSLASH. lia. Qed.

Lemma is_lead_range (c : char16) :
  JSON.is_lead c = true -> (55296 <= c <= 56319)%N.
Proof.
  unfold JSON.is_lead. rewrite andb_true_iff, !N.leb_le. tauto.
Qed.

Lemma is_trail_range (c : char16) :
  JSON.is_trail c = true -> (56320 <= c <= 57343)%N.
Proof.
  unfold JSON.is_trail. rewrite andb_true_iff, !N.leb_le. tauto.
Qed.

Lemma quote_body_cons (c : char16) (r : jsstring) :
  JSON.quote_body (c :: r)
  = if JSON.is_lead c then
      match r with
      | d :: r' =>
          if JSON.is_trail d then c :: d :: JSON.quote_body r'
          else JSON.UnicodeEscape c ++ JSON.quote_body r
      | [] => JSON.UnicodeEscape c
      end
    else if JSON.is_trail c then JSON.UnicodeEscape c ++ JSON.quote_body r
    else JSON.quote_unit c ++ JSON.quote_body r.
Proof. reflexivity. Qed.

Lemma parse_quote_body_bounded (n : nat) :
  forall (s rest : jsstring),
    length s <= n ->
    JSON.parse_string_body (JSON.quote_body s ++ QUOTE :: rest) = Some (s, rest).
Proof.
  induction n as [|n IH]; intros s rest Hlen.
  - destruct s; [reflexivity|simpl in Hlen; lia].
  - destruct s as [|c r]; [reflexivity|].
    simpl in Hlen. rewrite quote_body_cons.
    destruct (JSON.is_lead c) eqn:Hl.
    + apply is_lead_range in Hl.
      destruct r as [|d r'].
      * rewrite parse_string_escape by lia. reflexivity.
      * destruct (JSON.is_trail d) eqn:Ht.
        -- apply is_trail_range in Ht.
           destruct (surrogate_literal c) as (? & ? & ?); [lia|].
           destruct (surrogate_literal d) as (? & ? & ?); [lia|].
           simpl app.
           rewrite parse_string_literal by assumption.
           rewrite parse_string_literal by assumption.
           rewrite IH by (simpl in Hlen; lia). reflexivity.
        -- rewrite <- app_assoc, parse_string_escape by lia.
           rewrite IH by lia. reflexivity.
    + destruct (JSON.is_trail c) eqn:Ht.
      * apply is_trail_range in Ht.
        rewrite <- app_assoc, parse_string_escape by lia.
        rewrite IH by lia. reflexivity.
      * rewrite <- app_assoc, parse_string_unit.
        rewrite IH by lia. reflexivity.
Qed.

(** A quoted string is read back as the string it quotes, whatever
    follows the closing quotation mark. *)
Lemma parse_quote_body (s rest : jsstring) :
  JSON.parse_string_body (JSON.quote_body s ++ QUOTE :: rest) = Some (s, rest).
Proof. apply (parse_quote_body_bounded (length s)). apply le_n. Qed.

(* ================================================================== *)
(** * JSON values: what [JSON.parse] makes of [JSON.stringify] *)
(* ================================================================== *)

Lemma parse_elements_S (f : nat) (s : jsstring) :
  JSON.parse_elements (S f) s
  = match JSON.parse_value f s with
    | None => None
    | Some (v, r) =>
        match JSON.skip_ws r with
        | c :: r' =>
            if (c =? 44)%N then
              match JSON.parse_elements f r' with
              | Some (l, r'') => Some (v :: l, r'')
              | None => None
              end
            else if (c =? 93)%N then Some ([v], r')
            else None
        | [] => None
        end
    end.
Proof. reflexivity. Qed.

(** One member of an object, followed by a comma. *)
Lemma parse_member_more (f : nat) (k r2 r4 : jsstring) (v : JSON.json)
    (acc : list (jsstring * JSON.json)) :
  JSON.parse_value f r2 = Some (v, 44%N :: r4) ->
  JSON.parse_members (S f)
    (JSON.QuoteJSONString k ++ 58%N :: r2) acc
  = JSON.parse_members f r4 (JSON.set_member acc k v).
Proof.
  intros Hv. unfold JSON.QuoteJSONString.
  simpl app. rewrite <- app_assoc. simpl app.
  cbn [JSON.parse_members JSON.skip_ws JSON.is_ws].
  change (JSON.is_ws QUOTE) with false. cbv iota.
  change (negb (QUOTE =? QUOTE)%N) with false. cbv iota.
  rewrite parse_quote_body.
  cbn [JSON.skip_ws]. change (JSON.is_ws 58%N) with false. cbv iota.
  change (negb (58 =? 58)%N) with false. cbv iota.
  rewrite Hv.
  cbn [JSON.skip_ws]. change (JSON.is_ws 44%N) with false. cbv iota.
  reflexivity.
Qed.

(** The last member of an object, followed by the closing brace. *)
Lemma parse_member_last (f : nat) (k r2 r4 : jsstring) (v : JSON.json)
    (acc : list (jsstring * JSON.json)) :
  JSON.parse_value f r2 = Some (v, 125%N :: r4) ->
  JSON.parse_members (S f)
    (JSON.QuoteJSONString k ++ 58%N :: r2) acc
  = Some (JSON.set_member acc k v, r4).
Proof.
  intros Hv. unfold JSON.QuoteJSONString.
  simpl app. rewrite <- app_assoc. simpl app.
  cbn [JSON.parse_members JSON.skip_ws JSON.is_ws].
  change (JSON.is_ws QUOTE) with false. cbv iota.
  change (negb (QUOTE =? QUOTE)%N) with false. cbv iota.
  rewrite parse_quote_body.
  cbn [JSON.skip_ws]. change (JSON.is_ws 58%N) with false. cbv iota.
  change (negb (58 =? 58)%N) with false. cbv iota.
  rewrite Hv.
  cbn [JSON.skip_ws]. change (JSON.is_ws 125%N) with false. cbv iota.
  reflexivity.
Qed.

Lemma parse_value_string (f : nat) (s rest : jsstring) :
  JSON.parse_value (S f) (JSON.QuoteJSONString s ++ rest)
  = Some (JSON.JStr s, rest).
Proof.
  unfold JSON.QuoteJSONString. simpl app. rewrite <- app_assoc. simpl app.
  cbn [JSON.parse_value JSON.skip_ws].
  change (JSON.is_ws QUOTE) with false. cbv iota.
  change (QUOTE =? 91)%N with false. change (QUOTE =? 123)%N with false.
  change (QUOTE =? QUOTE)%N with true. cbv iota.
  rewrite parse_quote_body. reflexivity.
Qed.

Lemma parse_value_bool (f : nat) (b : bool) (rest : jsstring) :
  JSON.parse_value (S f) (JSON.stringify_bool b ++ rest)
  = Some (JSON.JBool b, rest).
Proof.
  destruct b.
  - change (JSON.stringify_bool true ++ rest)
      with (116%N :: 114%N :: 117%N :: 101%N :: rest).
    cbn [JSON.parse_value JSON.skip_ws].
    change (JSON.is_ws 116%N) with false. cbv iota.
    change (116 =? 91)%N with false. change (116 =? 123)%N with false.
    change (116 =? QUOTE)%N with false.
    change ((116 =? 45)%N || is_digit 116%N) with false. cbv iota.
    change (JSON.strip_prefix (lit "true")
              (116%N :: 114%N :: 117%N :: 101%N :: rest))
      with (Some rest).
    reflexivity.
  - change (JSON.stringify_bool false ++ rest)
      with (102%N :: 97%N :: 108%N :: 115%N :: 101%N :: rest).
    cbn [JSON.parse_value JSON.skip_ws].
    change (JSON.is_ws 102%N) with false. cbv iota.
    change (102 =? 91)%N with false. change (102 =? 123)%N with false.
    change (102 =? QUOTE)%N with false.
    change ((102 =? 45)%N || is_digit 102%N) with false. cbv iota.
    change (JSON.strip_prefix (lit "true")
              (102%N :: 97%N :: 108%N :: 115%N :: 101%N :: rest))
      with (@None jsstring).
    change (JSON.strip_prefix (lit "false")
              (102%N :: 97%N :: 108%N :: 115%N :: 101%N :: rest))
      with (Some rest).
    reflexivity.
Qed.

Lemma Number_toString_head (z : Z) :
  exists c t,
    Number_toString z = c :: t /\ (c = 45%N \/ (48 <= c <= 57)%N).
Proof.
  unfold Number_toString. destruct z as [|p|p]; simpl Z.to_int.
  - exists 48%N, []. split; [reflexivity|right; lia].
  - pose proof (pos_to_uint_head p) as Hh.
    destruct (uint_chars_head (Pos.to_uint p)) as (c & t & -> & Hc).
    + destruct (Pos.to_uint p); [contradiction|congruence..].
    + exists c, t. split; [reflexivity|right; apply digit_char_range, Hc].
  - eexists; eexists; split; [reflexivity|left; reflexivity].
Qed.

Lemma parse_value_number (f : nat) (z : Z) (rest : jsstring) :
  number_ends rest ->
  JSON.parse_value (S f) (Number_toString z ++ rest)
  = Some (JSON.JNum (JSON.mkDecimal z 0), rest).
Proof.
  intros Hrest.
  pose proof (parse_number_toString z rest Hrest) as Hn.
  destruct (Number_toString_head z) as (c & t & E & Hc).
  rewrite E in *. simpl app in *.
  cbn [JSON.parse_value JSON.skip_ws].
  assert (Hws : JSON.is_ws c = false).
  { unfold JSON.is_ws. decide_N_tests; reflexivity. }
  rewrite Hws.
  destruct (N.eqb_spec c 91); [lia|]. destruct (N.eqb_spec c 123); [lia|].
  destruct (N.eqb_spec c QUOTE); [unfold QUOTE in *; lia|].
  assert (Hd : ((c =? 45)%N || is_digit c) = true).
  { destruct Hc as [->|Hc]; [reflexivity|].
    apply orb_true_iff; right. apply digit_char_range, Hc. }
  rewrite Hd, Hn. reflexivity.
Qed.

Lemma parse_value_object (f : nat) (k r : jsstring) :
  JSON.parse_value (S f) (123%N :: JSON.QuoteJSONString k ++ r)
  = match JSON.parse_members f (JSON.QuoteJSONString k ++ r) [] with
    | Some (m, r') => Some (JSON.JObj m, r')
    | None => None
    end.
Proof.
  unfold JSON.QuoteJSONString. simpl app.
  cbn [JSON.parse_value JSON.skip_ws].
  change (JSON.is_ws 123%N) with false. cbv iota.
  change (123 =? 91)%N with false. change (123 =? 123)%N with true. cbv iota.
  change (JSON.is_ws QUOTE) with false. cbv iota.
  change (QUOTE =? 125)%N with false. cbv iota.
  reflexivity.
Qed.

Lemma stringify_opportunity_text (op : opportunity) (rest : jsstring) :
  JSON.stringify_opportunity op ++ rest
  = 123%N :: JSON.QuoteJSONString (lit "id") ++ 58%N
      :: Number_toString (id op) ++ 44%N
      :: JSON.QuoteJSONString (lit "title") ++ 58%N
      :: JSON.QuoteJSONString (title op) ++ 44%N
      :: JSON.QuoteJSONString (lit "category") ++ 58%N
      :: JSON.QuoteJSONString (category op) ++ 44%N
      :: JSON.QuoteJSONString (lit "saved") ++ 58%N
      :: JSON.stringify_bool (saved op) ++ 125%N :: rest.
Proof.
  unfold JSON.stringify_opportunity.
  repeat rewrite <- app_assoc. reflexivity.
Qed.

Lemma comma_ends_number (r : jsstring) : number_ends (44%N :: r).
Proof. simpl. repeat split; discriminate. Qed.

(** The text of one record is read back as the record's object. *)
Lemma parse_value_opportunity (f : nat) (op : opportunity) (rest : jsstring) :
  6 <= f ->
  JSON.parse_value f (JSON.stringify_opportunity op ++ rest)
  = Some (JSON.of_opportunity op, rest).
Proof.
  intros Hf.
  do 6 (destruct f as [|f]; [lia|]). clear Hf.
  rewrite stringify_opportunity_text, parse_value_object.
  rewrite (parse_member_more _ _ _ _ _ _
             (parse_value_number _ (id op) _ (comma_ends_number _))).
  rewrite (parse_member_more _ _ _ _ _ _
             (parse_value_string _ (title op) _)).
  rewrite (parse_member_more _ _ _ _ _ _
             (parse_value_string _ (category op) _)).
  rewrite (parse_member_last _ _ _ _ _ _
             (parse_value_bool _ (saved op) _)).
  reflexivity.
Qed.

Lemma stringify_elements_cons (op op' : opportunity) (l : list opportunity)
    (rest : jsstring) :
  JSON.stringify_elements (op :: op' :: l) ++ rest
  = JSON.stringify_opportunity op
    ++ 44%N :: JSON.stringify_elements (op' :: l) ++ rest.
Proof.
  change (JSON.stringify_elements (op :: op' :: l))
    with (JSON.stringify_opportunity op
          ++ lit "," ++ JSON.stringify_elements (op' :: l)).
  repeat rewrite <- app_assoc. reflexivity.
Qed.

Lemma parse_elements_opportunities (l : list opportunity) :
  l <> [] ->
  forall (f : nat) (rest : jsstring),
    length l + 6 <= f ->
    JSON.parse_elements f (JSON.stringify_elements l ++ 93%N :: rest)
    = Some (List.map JSON.of_opportunity l, rest).
Proof.
  induction l as [|op l IH]; [congruence|]. intros _ f rest Hf.
  destruct f as [|f]; [simpl in Hf; lia|].
  simpl in Hf. rewrite parse_elements_S.
  destruct l as [|op' l].
  - change (JSON.stringify_elements [op]) with (JSON.stringify_opportunity op).
    rewrite parse_value_opportunity by lia. reflexivity.
  - rewrite stringify_elements_cons.
    rewrite parse_value_opportunity by (simpl in Hf; lia).
    cbn [JSON.skip_ws]. change (JSON.is_ws 44%N) with false. cbv iota.
    change (44 =? 44)%N with true. cbv iota.
    rewrite IH; [reflexivity|congruence|simpl in *; lia].
Qed.

Lemma stringify_opportunity_length (op : opportunity) :
  6 <= length (JSON.stringify_opportunity op).
Proof.
  rewrite <- (List.app_nil_r (JSON.stringify_opportunity op)).
  rewrite stringify_opportunity_text.
  unfold JSON.QuoteJSONString. simpl. lia.
Qed.

Lemma stringify_elements_length (l : list opportunity) :
  6 * length l <= length (JSON.stringify_elements l).
Proof.
  induction l as [|op l IH]; [simpl; lia|].
  pose proof (stringify_opportunity_length op).
  destruct l as [|op' l].
  - change (JSON.stringify_elements [op]) with (JSON.stringify_opportunity op).
    simpl length. lia.
  - change (JSON.stringify_elements (op :: op' :: l))
      with (JSON.stringify_opportunity op
            ++ lit "," ++ JSON.stringify_elements (op' :: l)).
    rewrite !length_app.
    change (length (op :: op' :: l)) with (S (length (op' :: l))). lia.
Qed.

(** [JSON.parse(JSON.stringify(l))] is the array of the records' objects. *)
Lemma parse_stringify (l : list opportunity) :
  JSON.parse (JSON.stringify l) = Some (JSON.of_list l).
Proof.
  unfold JSON.parse, JSON.stringify.
  change (lit "[" ++ JSON.stringify_elements l ++ lit "]")
    with (91%N :: JSON.stringify_elements l ++ [93%N]).
  destruct l as [|op l].
  - reflexivity.
  - pose proof (stringify_elements_length (op :: l)) as Hlen.
    set (s := JSON.stringify_elements (op :: l)) in *.
    match goal with
    | |- context [JSON.parse_value ?n _] => remember n as fuel eqn:Efuel
    end.
    assert (Hfuel : exists f, fuel = S f /\ length (op :: l) + 6 <= f).
    { exists (2 * length (91%N :: s ++ [93%N]) + 1).
      split; [lia|].
      simpl length in *. rewrite length_app. simpl length. lia. }
    clear Efuel. destruct Hfuel as (f & -> & Hf).
    assert (Hhead : exists c t, s = c :: t /\ c = 123%N).
    { unfold s. rewrite <- (List.app_nil_r (JSON.stringify_elements (op :: l))).
      destruct l as [|op' l'].
      - change (JSON.stringify_elements [op] ++ [])
          with (JSON.stringify_opportunity op ++ []).
        rewrite stringify_opportunity_text. eauto.
      - rewrite stringify_elements_cons, stringify_opportunity_text. eauto. }
    destruct Hhead as (c & t & Hs & ->).
    cbn [JSON.parse_value JSON.skip_ws].
    change (JSON.is_ws 91%N) with false. cbv iota.
    change (91 =? 91)%N with true. cbv iota.
    rewrite Hs. simpl app. cbn [JSON.skip_ws].
    change (JSON.is_ws 123%N) with false. cbv iota.
    change (123 =? 93)%N with false. cbv iota.
    change (123%N :: t ++ [93%N]) with ((123%N :: t) ++ [93%N]).
    rewrite <- Hs. unfold s.
    rewrite parse_elements_opportunities by (congruence || exact Hf).
    reflexivity.
Qed.

Lemma decimal_int_integer (z : Z) :
  JSON.decimal_int (JSON.mkDecimal z 0) = Some z.
Proof. unfold JSON.decimal_int. simpl. f_equal. lia. Qed.

Lemma as_opportunity_of (op : opportunity) :
  JSON.as_opportunity (JSON.of_opportunity op) = Some op.
Proof.
  unfold JSON.as_opportunity, JSON.of_opportunity.
  rewrite !str_eqb_refl. simpl andb. cbv iota.
  rewrite decimal_int_integer. destruct op; reflexivity.
Qed.

Lemma as_list_of (l : list opportunity) :
  JSON.as_list (JSON.of_list l) = Some l.
Proof.
  unfold JSON.as_list, JSON.of_list.
  induction l as [|op l IH]; [reflexivity|].
  cbn [List.map JSON.as_opportunities].
  rewrite as_opportunity_of, IH. reflexivity.
Qed.

(* ================================================================== *)
(** * Persistence *)
(* ================================================================== *)

Lemma stringify_nonempty (l : list opportunity) : JSON.stringify l <> [].
Proof. unfold JSON.stringify. simpl. discriminate. Qed.

Lemma load_parsed (p : Page) (s : jsstring) :
  getItem STORAGE_KEY (localStorage p) = Some s ->
  s <> [] ->
  loadFromStorage p
  = match JSON.parse s with
    | None => SyntaxError
    | Some v =>
        match JSON.as_list v with
        | Some l => Normal (set_opportunities l p)
        | None => Untyped v
        end
    end.
Proof.
  intros Hg Hs. unfold loadFromStorage. rewrite Hg.
  destruct s; [congruence|reflexivity].
Qed.

Lemma load_stringified (p : Page) (l : list opportunity) :
  getItem STORAGE_KEY (localStorage p) = Some (JSON.stringify l) ->
  loadFromStorage p = Normal (set_opportunities l p).
Proof.
  intros Hg.
  rewrite (load_parsed p _ Hg (stringify_nonempty l)).
  rewrite parse_stringify, as_list_of. reflexivity.
Qed.

(** C5.  What [saveToStorage] writes, [loadFromStorage] reads back as the
    same list: same records, same order, same field values.  This holds
    for the page that saved and for any later page that finds the same
    storage area. *)
Theorem save_load_roundtrip (p : Page) :
  JSON.parse (JSON.stringify (opportunities p))
  = Some (JSON.of_list (opportunities p))
  /\ JSON.as_list (JSON.of_list (opportunities p)) = Some (opportunities p)
  /\ loadFromStorage (saveToStorage p) = Normal (saveToStorage p)
  /\ forall q,
       localStorage q = localStorage (saveToStorage p) ->
       exists q',
         loadFromStorage q = Normal q'
         /\ opportunities q' = opportunities p.
Proof.
  split; [apply parse_stringify|]. split; [apply as_list_of|].
  assert (Hg : getItem STORAGE_KEY (localStorage (saveToStorage p))
               = Some (JSON.stringify (opportunities p))).
  { simpl. apply getItem_setItem. }
  split.
  - rewrite (load_stringified _ _ Hg). destruct p; reflexivity.
  - intros q Hq. rewrite <- Hq in Hg.
    rewrite (load_stringified _ _ Hg). eexists; split; reflexivity.
Qed.

Lemma save_load_roundtrip_witness :
  localStorage (stored (JSON.stringify (opportunities one_record)))
  = localStorage (saveToStorage one_record)
  /\ exists q',
       loadFromStorage (stored (JSON.stringify (opportunities one_record)))
       = Normal q'
       /\ opportunities q' = opportunities one_record.
Proof.
  assert (H : localStorage (stored (JSON.stringify (opportunities one_record)))
              = localStorage (saveToStorage one_record))
    by (vm_compute; reflexivity).
  split; [exact H|].
  exact (proj2 (proj2 (proj2 (save_load_roundtrip one_record))) _ H).
Defined.

(** C2, as the specification states it, fails.  Text that is not JSON
    makes [JSON.parse] throw, and [init] does not catch the exception;
    text that is JSON of another shape is assigned as it is. *)
Lemma load_malformed_not_empty :
  init (stored (lit "{")) = SyntaxError
  /\ loadFromStorage (stored (lit "5"))
     = Untyped (JSON.JNum (JSON.mkDecimal 5 0))
  /\ ~ (exists p, init (stored (lit "{")) = Normal p /\ opportunities p = []).
Proof.
  assert (H : init (stored (lit "{")) = SyntaxError) by (vm_compute; reflexivity).
  split; [exact H|]. split; [vm_compute; reflexivity|].
  intros (p & Hp & _). rewrite H in Hp. discriminate.
Qed.

(** C2, as the code has it.  With no item under the key, or the empty
    string, the list is left as it is (empty when the script starts).
    The text [saveToStorage] wrote gives back the saved list.  Text that
    is not JSON ends [loadFromStorage], and [init] with it, by a
    SyntaxError.  Text that is JSON but not an array of records is
    assigned to [opportunities] unchanged. *)
Theorem load_outcomes (p : Page) :
  (getItem STORAGE_KEY (localStorage p) = None
   \/ getItem STORAGE_KEY (localStorage p) = Some [] ->
   loadFromStorage p = Normal p /\ init p = Normal (render p))
  /\ (forall l,
         getItem STORAGE_KEY (localStorage p) = Some (JSON.stringify l) ->
         loadFromStorage p = Normal (set_opportunities l p))
  /\ (forall s,
         getItem STORAGE_KEY (localStorage p) = Some s -> s <> [] ->
         JSON.parse s = None ->
         loadFromStorage p = SyntaxError /\ init p = SyntaxError)
  /\ (forall s v,
         getItem STORAGE_KEY (localStorage p) = Some s -> s <> [] ->
         JSON.parse s = Some v -> JSON.as_list v = None ->
         loadFromStorage p = Untyped v /\ init p = Untyped v)
  /\ (forall storage titleValue typeValue buttons errorText errorDisplay,
         getItem STORAGE_KEY storage = None
         \/ getItem STORAGE_KEY storage = Some [] ->
         exists p',
           init (start storage titleValue typeValue buttons errorText
                   errorDisplay)
           = Normal p'
           /\ opportunities p' = []).
Proof.
  split; [|split; [|split; [|split]]].
  - intros H.
    assert (Hl : loadFromStorage p = Normal p).
    { unfold loadFromStorage. destruct H as [-> | ->]; reflexivity. }
    unfold init. rewrite Hl. split; reflexivity.
  - apply load_stringified.
  - intros s Hg Hs Hp.
    assert (Hl : loadFromStorage p = SyntaxError).
    { rewrite (load_parsed p s Hg Hs), Hp. reflexivity. }
    unfold init. rewrite Hl. split; reflexivity.
  - intros s v Hg Hs Hp Ha.
    assert (Hl : loadFromStorage p = Untyped v).
    { rewrite (load_parsed p s Hg Hs), Hp, Ha. reflexivity. }
    unfold init. rewrite Hl. split; reflexivity.
  - intros storage titleValue typeValue buttons errorText errorDisplay H.
    eexists. split.
    + unfold init, loadFromStorage. cbn [localStorage start].
      destruct H as [-> | ->]; reflexivity.
    + rewrite (proj1 (render_fields _)). reflexivity.
Qed.

Lemma load_outcomes_witness :
  (getItem STORAGE_KEY (localStorage blank) = None
   /\ loadFromStorage blank = Normal blank
   /\ opportunities blank = [])
  /\ (getItem STORAGE_KEY
        (localStorage (stored (JSON.stringify (opportunities one_record))))
      = Some (JSON.stringify (opportunities one_record))
      /\ loadFromStorage (stored (JSON.stringify (opportunities one_record)))
         = Normal
             (set_opportunities (opportunities one_record)
                (stored (JSON.stringify (opportunities one_record)))))
  /\ (JSON.parse (lit "[1,]") = None
      /\ init (stored (lit "[1,]")) = SyntaxError)
  /\ (JSON.parse (lit "[null]") = Some (JSON.JArr [JSON.JNull])
      /\ init (stored (lit "[null]")) = Untyped (JSON.JArr [JSON.JNull])).
Proof.
  split; [|split; [|split]].
  - split; [reflexivity|]. split; [|reflexivity].
    apply (proj1 (load_outcomes blank)). left. reflexivity.
  - assert (H : getItem STORAGE_KEY
                  (localStorage
                     (stored (JSON.stringify (opportunities one_record))))
                = Some (JSON.stringify (opportunities one_record)))
      by (vm_compute; reflexivity).
    split; [exact H|].
    exact (proj1 (proj2 (load_outcomes _)) _ H).
  - assert (H : JSON.parse (lit "[1,]") = None) by (vm_compute; reflexivity).
    split; [exact H|].
    apply (proj1 (proj2 (proj2 (load_outcomes (stored (lit "[1,]")))))
             (lit "[1,]")); [vm_compute; reflexivity|discriminate|exact H].
  - assert (H : JSON.parse (lit "[null]") = Some (JSON.JArr [JSON.JNull]))
      by (vm_compute; reflexivity).
    split; [exact H|].
    apply (proj1 (proj2 (proj2 (proj2 (load_outcomes (stored (lit "[null]"))))))
             (lit "[null]")); [vm_compute; reflexivity|discriminate|exact H|reflexivity].
Defined.

(* ================================================================== *)
(** * Escaping *)
(* ================================================================== *)

Lemma escape_unit_cases (c : char16) :
  (c = 38%N /\ escape_unit c = lit "&amp;")
  \/ (c = 160%N /\ escape_unit c = lit "&nbsp;")
  \/ (c = 60%N /\ escape_unit c = lit "&lt;")
  \/ (c = 62%N /\ escape_unit c = lit "&gt;")
  \/ (c <> 38%N /\ c <> 60%N /\ c <> 62%N /\ escape_unit c = [c]).
Proof.
  unfold escape_unit.
  destruct (N.eqb_spec c 38); [auto|].
  destruct (N.eqb_spec c 160); [auto|].
  destruct (N.eqb_spec c 60); [auto|].
  destruct (N.eqb_spec c 62); [auto 6|].
  auto 8.
Qed.

(** Escaped text is read by the tokenizer as text: it adds the
    characters of [s], NUL apart, to the run of character data being
    read and opens no tag. *)
Lemma tokens_escapeHTML (s : jsstring) :
  forall (cur rest : jsstring),
    tokens_from false cur (escapeHTML s ++ rest)
    = tokens_from false (cur ++ filter (fun c => negb (c =? 0)%N) s) rest.
Proof.
  unfold escapeHTML.
  induction s as [|c s IH]; intros cur rest.
  - simpl. rewrite List.app_nil_r. reflexivity.
  - cbn [flat_map]. rewrite <- app_assoc.
    destruct (escape_unit_cases c)
      as [[-> ->]|[[-> ->]|[[-> ->]|[[-> ->]|(H1 & H2 & H3 & ->)]]]].
    + cbn [filter]. change (negb (38 =? 0)%N) with true. cbv iota.
      replace (cur ++ 38%N :: filter (fun c => negb (c =? 0)%N) s)
        with ((cur ++ [38%N]) ++ filter (fun c => negb (c =? 0)%N) s)
        by (rewrite <- app_assoc; reflexivity).
      rewrite <- IH. reflexivity.
    + cbn [filter]. change (negb (160 =? 0)%N) with true. cbv iota.
      replace (cur ++ 160%N :: filter (fun c => negb (c =? 0)%N) s)
        with ((cur ++ [160%N]) ++ filter (fun c => negb (c =? 0)%N) s)
        by (rewrite <- app_assoc; reflexivity).
      rewrite <- IH. reflexivity.
    + cbn [filter]. change (negb (60 =? 0)%N) with true. cbv iota.
      replace (cur ++ 60%N :: filter (fun c => negb (c =? 0)%N) s)
        with ((cur ++ [60%N]) ++ filter (fun c => negb (c =? 0)%N) s)
        by (rewrite <- app_assoc; reflexivity).
      rewrite <- IH. reflexivity.
    + cbn [filter]. change (negb (62 =? 0)%N) with true. cbv iota.
      replace (cur ++ 62%N :: filter (fun c => negb (c =? 0)%N) s)
        with ((cur ++ [62%N]) ++ filter (fun c => negb (c =? 0)%N) s)
        by (rewrite <- app_assoc; reflexivity).
      rewrite <- IH. reflexivity.
    + simpl app. cbn [tokens_from filter].
      apply N.eqb_neq in H1, H2. rewrite H1, H2.
      destruct (c =? 0)%N; cbn [negb]; cbv iota.
      * apply IH.
      * replace (cur ++ c :: filter (fun c => negb (c =? 0)%N) s)
          with ((cur ++ [c]) ++ filter (fun c => negb (c =? 0)%N) s)
          by (rewrite <- app_assoc; reflexivity).
        apply IH.
Qed.

Lemma tokens_text (t : jsstring) :
  forallb (fun c => negb (c =? 60)%N && negb (c =? 38)%N && negb (c =? 0)%N)
    t = true ->
  forall (cur rest : jsstring),
    tokens_from false cur (t ++ rest) = tokens_from false (cur ++ t) rest.
Proof.
  induction t as [|c t IH]; intros Ht cur rest.
  - simpl. rewrite List.app_nil_r. reflexivity.
  - simpl in Ht. apply andb_true_iff in Ht. destruct Ht as [Hc Ht].
    apply andb_true_iff in Hc. destruct Hc as [Hc H3].
    apply andb_true_iff in Hc. destruct Hc as [H1 H2].
    apply negb_true_iff in H1, H2, H3.
    simpl app. cbn [tokens_from]. rewrite H1, H2, H3.
    rewrite IH by assumption. rewrite <- app_assoc. reflexivity.
Qed.

Lemma tokens_tag (t : jsstring) :
  forallb (fun c => negb (c =? 62)%N && negb (c =? 0)%N) t = true ->
  forall (cur rest : jsstring),
    tokens_from true cur (t ++ 62%N :: rest)
    = option_map (cons (Tag (cur ++ t))) (tokens_from false [] rest).
Proof.
  induction t as [|c t IH]; intros Ht cur rest.
  - simpl. rewrite List.app_nil_r. reflexivity.
  - simpl in Ht. apply andb_true_iff in Ht. destruct Ht as [Hc Ht].
    apply andb_true_iff in Hc. destruct Hc as [H1 H2].
    apply negb_true_iff in H1, H2.
    simpl app. cbn [tokens_from]. rewrite H1, H2.
    rewrite IH by assumption. rewrite <- app_assoc. reflexivity.
Qed.

Lemma tokens_open (cur rest : jsstring) :
  tokens_from false cur (60%N :: rest)
  = option_map (cons (Text cur)) (tokens_from true [] rest).
Proof. reflexivity. Qed.

Lemma escapeHTML_no_bracket (s : jsstring) :
  ~ In 60%N (escapeHTML s) /\ ~ In 62%N (escapeHTML s).
Proof.
  unfold escapeHTML. induction s as [|c s [IH1 IH2]]; simpl; [tauto|].
  rewrite !in_app_iff.
  destruct (escape_unit_cases c)
    as [[-> ->]|[[-> ->]|[[-> ->]|[[-> ->]|(H1 & H2 & H3 & ->)]]]];
    simpl; split; intros [H|H]; try tauto;
    repeat (destruct H as [H|H]; try discriminate; try congruence).
Qed.

(** ** Newlines *)

Lemma normalize_cons (c : char16) (rest : jsstring) :
  (c =? 13)%N = false ->
  normalize_newlines (c :: rest) = c :: normalize_newlines rest.
Proof. intros H. cbn [normalize_newlines]. rewrite H. reflexivity. Qed.

Lemma normalize_lit (t : jsstring) (rest : jsstring) :
  forallb (fun c => negb (c =? 13)%N) t = true ->
  normalize_newlines (t ++ rest) = t ++ normalize_newlines rest.
Proof.
  induction t as [|c t IH]; intros Ht; [reflexivity|].
  simpl in Ht. apply andb_true_iff in Ht. destruct Ht as [Hc Ht].
  apply negb_true_iff in Hc.
  simpl app. rewrite normalize_cons by assumption.
  rewrite IH by assumption. reflexivity.
Qed.

Lemma normalize_CR (rest : jsstring) :
  normalize_newlines (13%N :: rest)
  = if starts_LF rest then normalize_newlines rest
    else 10%N :: normalize_newlines rest.
Proof. reflexivity. Qed.

Lemma escape_unit_no_CR (c : char16) :
  (c =? 13)%N = false ->
  forallb (fun d => negb (d =? 13)%N) (escape_unit c) = true.
Proof.
  intros H.
  destruct (escape_unit_cases c)
    as [[-> ->]|[[-> ->]|[[-> ->]|[[-> ->]|(_ & _ & _ & ->)]]]];
    try reflexivity.
  simpl. rewrite H. reflexivity.
Qed.

Lemma starts_LF_escape (s rest : jsstring) :
  starts_LF rest = false ->
  starts_LF (escapeHTML s ++ rest) = starts_LF s.
Proof.
  intros Hr. destruct s as [|c s]; [exact Hr|].
  unfold escapeHTML. cbn [flat_map]. rewrite <- app_assoc.
  destruct (escape_unit_cases c)
    as [[-> ->]|[[-> ->]|[[-> ->]|[[-> ->]|(_ & _ & _ & ->)]]]];
    reflexivity.
Qed.

(** Escaping and the normalisation of newlines commute. *)
Lemma normalize_escape (s : jsstring) :
  forall rest,
    starts_LF rest = false ->
    normalize_newlines (escapeHTML s ++ rest)
    = escapeHTML (normalize_newlines s) ++ normalize_newlines rest.
Proof.
  induction s as [|c s IH]; intros rest Hr; [reflexivity|].
  change (escapeHTML (c :: s)) with (escape_unit c ++ escapeHTML s).
  rewrite <- app_assoc.
  destruct (N.eqb_spec c 13) as [->|Hc].
  - change (escape_unit 13%N) with [13%N]. simpl app.
    rewrite !normalize_CR, (starts_LF_escape s rest Hr).
    destruct (starts_LF s); [apply IH, Hr|].
    change (escapeHTML (10%N :: normalize_newlines s))
      with (10%N :: escapeHTML (normalize_newlines s)).
    simpl app. rewrite IH by assumption. reflexivity.
  - apply N.eqb_neq in Hc.
    rewrite (normalize_lit (escape_unit c)) by (apply escape_unit_no_CR, Hc).
    rewrite IH by assumption.
    rewrite normalize_cons by assumption.
    change (escapeHTML (c :: normalize_newlines s))
      with (escape_unit c ++ escapeHTML (normalize_newlines s)).
    rewrite <- app_assoc. reflexivity.
Qed.

(** Text that holds neither a carriage return nor a NUL is the text of
    its text node. *)
Lemma html_text_plain (s : jsstring) :
  forallb (fun c => negb (c =? 13)%N && negb (c =? 0)%N) s = true ->
  html_text s = s.
Proof.
  unfold html_text. induction s as [|c s IH]; intros H; [reflexivity|].
  simpl in H. apply andb_true_iff in H. destruct H as [Hc Hs].
  apply andb_true_iff in Hc. destruct Hc as [H1 H2].
  apply negb_true_iff in H1.
  rewrite normalize_cons by assumption. cbn [filter]. rewrite H2.
  rewrite IH by assumption. reflexivity.
Qed.

(** The markup of a card, cut at its angle brackets. *)
Lemma card_markup (op : opportunity) :
  innerHTML (createOpportunityCard op)
  = indent8 ++ 60%N :: lit "h3" ++ 62%N
      :: escapeHTML (title op) ++ 60%N :: lit "/h3" ++ 62%N
      :: indent8 ++ 60%N
      :: (lit "p class=" ++ [QUOTE] ++ lit "card-details" ++ [QUOTE]) ++ 62%N
      :: lit "Category: " ++ escapeHTML (category op) ++ 60%N
      :: lit "/p" ++ 62%N
      :: indent8 ++ 60%N
      :: (lit "button class=" ++ [QUOTE]
          ++ (if saved op then lit "card-action-btn remove-btn"
              else lit "card-action-btn save-btn") ++ [QUOTE]) ++ 62%N
      :: (if saved op then lit "Remove" else lit "Save") ++ 60%N
      :: lit "/button" ++ 62%N :: indent4.
Proof.
  unfold createOpportunityCard. cbn [innerHTML].
  destruct (saved op); reflexivity.
Qed.

Ltac normalize_pieces :=
  repeat first
    [ rewrite normalize_lit by reflexivity
    | rewrite normalize_cons by reflexivity
    | rewrite normalize_escape by reflexivity ].

(** The same markup after the preprocessing of the input stream: the
    template is unchanged, the newlines of title and category are
    normalised. *)
Lemma card_markup_normalized (op : opportunity) :
  normalize_newlines (innerHTML (createOpportunityCard op))
  = indent8 ++ 60%N :: lit "h3" ++ 62%N
      :: escapeHTML (normalize_newlines (title op)) ++ 60%N
      :: lit "/h3" ++ 62%N
      :: indent8 ++ 60%N
      :: (lit "p class=" ++ [QUOTE] ++ lit "card-details" ++ [QUOTE]) ++ 62%N
      :: lit "Category: " ++ escapeHTML (normalize_newlines (category op))
      ++ 60%N :: lit "/p" ++ 62%N
      :: indent8 ++ 60%N
      :: (lit "button class=" ++ [QUOTE]
          ++ (if saved op then lit "card-action-btn remove-btn"
              else lit "card-action-btn save-btn") ++ [QUOTE]) ++ 62%N
      :: (if saved op then lit "Remove" else lit "Save") ++ 60%N
      :: lit "/button" ++ 62%N :: indent4.
Proof.
  rewrite card_markup.
  destruct (saved op); normalize_pieces; reflexivity.
Qed.

(** C9.  The title and the category go through [escapeHTML] before they
    are put into the markup of a card.  Escaped text holds no angle
    bracket, and the parser behind [innerHTML] reads the markup of the
    card as the tags of the template with the title and the category as
    character data, whatever characters they hold: the text nodes hold
    the title and the category as the parser keeps text (newlines
    normalised, NUL left out; unchanged when they hold neither a carriage
    return nor a NUL), and nothing of them becomes a tag.  A title written
    like a script element is text of the heading. *)
Theorem card_text_is_escaped (op : opportunity) :
  tokens (innerHTML (createOpportunityCard op))
  = Some [Text indent8; Tag (lit "h3"); Text (html_text (title op));
          Tag (lit "/h3");
          Text indent8;
          Tag (lit "p class=" ++ [QUOTE] ++ lit "card-details" ++ [QUOTE]);
          Text (lit "Category: " ++ html_text (category op)); Tag (lit "/p");
          Text indent8;
          Tag (lit "button class=" ++ [QUOTE]
               ++ (if saved op then lit "card-action-btn remove-btn"
                   else lit "card-action-btn save-btn") ++ [QUOTE]);
          Text (if saved op then lit "Remove" else lit "Save");
          Tag (lit "/button"); Text indent4]
  /\ (forall s,
         forallb (fun c => negb (c =? 13)%N && negb (c =? 0)%N) s = true ->
         html_text s = s)
  /\ (forall s, ~ In 60%N (escapeHTML s) /\ ~ In 62%N (escapeHTML s))
  /\ escapeHTML (lit "<script>alert(1)</script>")
     = lit "&lt;script&gt;alert(1)&lt;/script&gt;"
  /\ tokens (lit "<h3>" ++ escapeHTML (lit "<script>alert(1)</script>")
             ++ lit "</h3>")
     = Some [Text []; Tag (lit "h3"); Text (lit "<script>alert(1)</script>");
             Tag (lit "/h3"); Text []].
Proof.
  split; [|split; [apply html_text_plain
                  |split; [apply escapeHTML_no_bracket|split; reflexivity]]].
  unfold tokens, html_text. rewrite card_markup_normalized.
  rewrite (tokens_text indent8 eq_refl), tokens_open.
  rewrite (tokens_tag (lit "h3") eq_refl).
  rewrite tokens_escapeHTML, tokens_open.
  rewrite (tokens_tag (lit "/h3") eq_refl).
  rewrite (tokens_text indent8 eq_refl), tokens_open.
  rewrite (tokens_tag
             (lit "p class=" ++ [QUOTE] ++ lit "card-details" ++ [QUOTE])
             eq_refl).
  rewrite (tokens_text (lit "Category: ") eq_refl).
  rewrite tokens_escapeHTML, tokens_open.
  rewrite (tokens_tag (lit "/p") eq_refl).
  rewrite (tokens_text indent8 eq_refl), tokens_open.
  destruct (saved op).
  - rewrite (tokens_tag
               (lit "button class=" ++ [QUOTE]
                ++ lit "card-action-btn remove-btn" ++ [QUOTE]) eq_refl).
    rewrite (tokens_text (lit "Remove") eq_refl), tokens_open.
    rewrite (tokens_tag (lit "/button") eq_refl).
    reflexivity.
  - rewrite (tokens_tag
               (lit "button class=" ++ [QUOTE]
                ++ lit "card-action-btn save-btn" ++ [QUOTE]) eq_refl).
    rewrite (tokens_text (lit "Save") eq_refl), tokens_open.
    rewrite (tokens_tag (lit "/button") eq_refl).
    reflexivity.
Qed.

Lemma card_text_is_escaped_witness :
  forallb (fun c => negb (c =? 13)%N && negb (c =? 0)%N)
    (lit "<script>alert(1)</script>") = true
  /\ html_text (lit "<script>alert(1)</script>")
     = lit "<script>alert(1)</script>"
  /\ tokens
       (innerHTML
          (createOpportunityCard
             (mkOpportunity 1 [97%N; 13%N; 60%N; 0%N; 98%N] [13%N; 10%N]
                true)))
     = Some [Text indent8; Tag (lit "h3"); Text [97%N; 10%N; 60%N; 98%N];
             Tag (lit "/h3");
             Text indent8;
             Tag (lit "p class=" ++ [QUOTE] ++ lit "card-details" ++ [QUOTE]);
             Text (lit "Category: " ++ [10%N]); Tag (lit "/p");
             Text indent8;
             Tag (lit "button class=" ++ [QUOTE]
                  ++ lit "card-action-btn remove-btn" ++ [QUOTE]);
             Text (lit "Remove"); Tag (lit "/button"); Text indent4].
Proof.
  split; [reflexivity|]. split.
  - apply (proj1 (proj2 (card_text_is_escaped
                           (mkOpportunity 1 [] [] false)))).
    reflexivity.
  - rewrite (proj1 (card_text_is_escaped
                      (mkOpportunity 1 [97%N; 13%N; 60%N; 0%N; 98%N]
                         [13%N; 10%N] true))).
    reflexivity.
Defined.

(* ================================================================== *)
(** * The fuel of [JSON.parse] is enough *)
(* ================================================================== *)

(** Every nested call of the descent is on a strictly shorter text, so a
    result obtained with fuel above twice the length of the text does not
    depend on the fuel: [None] from [JSON.parse] is a syntax error, never
    an exhausted bound. *)

Lemma skip_ws_length (s : jsstring) : length (JSON.skip_ws s) <= length s.
Proof.
  induction s as [|c s IH]; simpl; [lia|].
  destruct (JSON.is_ws c); simpl; lia.
Qed.

Lemma skip_ws_cons_length (s r : jsstring) (c : char16) :
  JSON.skip_ws s = c :: r -> S (length r) <= length s.
Proof.
  intros H. pose proof (skip_ws_length s) as L. rewrite H in L. exact L.
Qed.

Lemma read_digits_length (s r : jsstring) (d : uint) :
  read_digits s = (d, r) -> length r <= length s.
Proof.
  revert d r. induction s as [|c s IH]; intros d r; simpl.
  - intros [= <- <-]. simpl; lia.
  - destruct (digit_char c).
    + destruct (read_digits s) as [d' r'] eqn:E. intros [= <- <-].
      specialize (IH _ _ eq_refl). lia.
    + intros [= <- <-]. simpl; lia.
Qed.

Lemma strip_prefix_length (p s r : jsstring) :
  JSON.strip_prefix p s = Some r -> length r <= length s.
Proof.
  revert s. induction p as [|x p IH]; intros s; simpl.
  - intros [= <-]. lia.
  - destruct s as [|y s]; [discriminate|].
    destruct (x =? y)%N; [|discriminate].
    intros H. apply IH in H. simpl; lia.
Qed.

Ltac break_hyp H :=
  match type of H with
  | context [match ?x with _ => _ end] =>
      let E := fresh "E" in destruct x eqn:E; try discriminate H
  | context [if ?b then _ else _] =>
      let E := fresh "E" in destruct b eqn:E; try discriminate H
  end.

Lemma parse_string_body_length_bounded (n : nat) :
  forall (s t r : jsstring),
    length s <= n ->
    JSON.parse_string_body s = Some (t, r) -> length r < length s.
Proof.
  induction n as [|n IH]; intros s t r Hn H.
  - destruct s; [discriminate|simpl in Hn; lia].
  - destruct s as [|c s]; [discriminate|].
    simpl in Hn. simpl in H.
    repeat break_hyp H;
      repeat match goal with
      | X : JSON.parse_string_body ?u = Some _ |- _ =>
          apply IH in X; [|simpl in *; lia]
      end;
      try (injection H as <- <-); simpl in *; try lia.
Qed.

Lemma parse_string_body_length (s t r : jsstring) :
  JSON.parse_string_body s = Some (t, r) -> length r < length s.
Proof. apply (parse_string_body_length_bounded (length s)). apply le_n. Qed.

Ltac break_any :=
  match goal with
  | X : (_, _) = (_, _) |- _ => injection X as ? ?; subst
  | X : Some _ = Some _ |- _ => injection X as ?; subst
  | X : context [match ?x with _ => _ end] |- _ =>
      let E := fresh "E" in destruct x eqn:E; try discriminate
  end.

Lemma parse_number_length (s r : jsstring) (d : JSON.decimal) :
  JSON.parse_number s = Some (d, r) -> length r <= length s.
Proof.
  unfold JSON.parse_number.
  destruct (match s with
            | [] => (false, s)
            | c :: r0 => if (c =? 45)%N then (true, r0) else (false, s)
            end) as [neg s1] eqn:E1.
  assert (L1 : length s1 <= length s).
  { destruct s as [|c r0]; [injection E1 as _ <-; lia|].
    destruct (c =? 45)%N; injection E1 as _ <-; simpl; lia. }
  clear E1.
  destruct (read_digits s1) as [int s2] eqn:E2.
  apply read_digits_length in E2.
  destruct (negb _); [discriminate|].
  match goal with
  | |- match ?fp with _ => _ end = _ -> _ =>
      destruct fp as [[frac s3]|] eqn:E3; [|discriminate]
  end.
  assert (L3 : length s3 <= length s2).
  { destruct s2 as [|c r0]; [injection E3 as _ <-; lia|].
    destruct (c =? 46)%N; [|injection E3 as _ <-; lia].
    destruct (read_digits r0) as [f r'] eqn:E4.
    apply read_digits_length in E4.
    destruct f; try discriminate E3; injection E3 as _ <-; simpl; lia. }
  clear E3.
  match goal with
  | |- match ?ep with _ => _ end = _ -> _ =>
      destruct ep as [[e s4]|] eqn:E5; [|discriminate]
  end.
  assert (L5 : length s4 <= length s3).
  { destruct s3 as [|c r0]; [injection E5 as _ <-; lia|].
    destruct ((c =? 101)%N || (c =? 69)%N); [|injection E5 as _ <-; lia].
    destruct (match r0 with
              | [] => (false, r0)
              | g :: r' =>
                  if (g =? 45)%N then (true, r')
                  else if (g =? 43)%N then (false, r') else (false, r0)
              end) as [eneg r1] eqn:E6.
    assert (L6 : length r1 <= length r0).
    { destruct r0 as [|g r']; [injection E6 as _ <-; lia|].
      destruct (g =? 45)%N; [injection E6 as _ <-; simpl; lia|].
      destruct (g =? 43)%N; injection E6 as _ <-; simpl; lia. }
    destruct (read_digits r1) as [ed r2] eqn:E7.
    apply read_digits_length in E7.
    destruct ed; try discriminate E5; injection E5 as _ <-; simpl; lia. }
  intros [= _ <-]. lia.
Qed.

Lemma parse_value_S (f : nat) (s : jsstring) :
  JSON.parse_value (S f) s
  = match JSON.skip_ws s with
    | [] => None
    | c :: r =>
        if (c =? 91)%N then
          match JSON.skip_ws r with
          | d :: r' =>
              if (d =? 93)%N then Some (JSON.JArr [], r')
              else
                match JSON.parse_elements f r with
                | Some (l, r'') => Some (JSON.JArr l, r'')
                | None => None
                end
          | [] => None
          end
        else if (c =? 123)%N then
          match JSON.skip_ws r with
          | d :: r' =>
              if (d =? 125)%N then Some (JSON.JObj [], r')
              else
                match JSON.parse_members f r [] with
                | Some (m, r'') => Some (JSON.JObj m, r'')
                | None => None
                end
          | [] => None
          end
        else if (c =? QUOTE)%N then
          match JSON.parse_string_body r with
          | Some (t, r') => Some (JSON.JStr t, r')
          | None => None
          end
        else if (c =? 45)%N || is_digit c then
          match JSON.parse_number (c :: r) with
          | Some (d, r') => Some (JSON.JNum d, r')
          | None => None
          end
        else
          match JSON.strip_prefix (lit "true") (c :: r) with
          | Some r' => Some (JSON.JBool true, r')
          | None =>
              match JSON.strip_prefix (lit "false") (c :: r) with
              | Some r' => Some (JSON.JBool false, r')
              | None =>
                  match JSON.strip_prefix (lit "null") (c :: r) with
                  | Some r' => Some (JSON.JNull, r')
                  | None => None
                  end
              end
          end
    end.
Proof. reflexivity. Qed.

Lemma parse_members_S (f : nat) (s : jsstring)
    (acc : list (jsstring * JSON.json)) :
  JSON.parse_members (S f) s acc
  = match JSON.skip_ws s with
    | q :: r0 =>
        if negb (q =? QUOTE)%N then None else
        match JSON.parse_string_body r0 with
        | None => None
        | Some (k, r1) =>
            match JSON.skip_ws r1 with
            | c :: r2 =>
                if negb (c =? 58)%N then None else
                match JSON.parse_value f r2 with
                | None => None
                | Some (v, r3) =>
                    match JSON.skip_ws r3 with
                    | d :: r4 =>
                        if (d =? 44)%N
                        then JSON.parse_members f r4 (JSON.set_member acc k v)
                        else if (d =? 125)%N
                             then Some (JSON.set_member acc k v, r4)
                             else None
                    | [] => None
                    end
                end
            | [] => None
            end
        end
    | [] => None
    end.
Proof. reflexivity. Qed.

Ltac learn_lengths :=
  repeat match goal with
  | X : JSON.skip_ws _ = _ :: _ |- _ => apply skip_ws_cons_length in X
  | X : JSON.parse_string_body _ = Some _ |- _ =>
      apply parse_string_body_length in X
  | X : JSON.parse_number _ = Some _ |- _ => apply parse_number_length in X
  | X : JSON.strip_prefix _ _ = Some _ |- _ => apply strip_prefix_length in X
  end.

(** What is left after a value, a run of elements or a run of members is
    no longer than what was there. *)
Lemma parse_rest_length (f : nat) :
  (forall s v r, JSON.parse_value f s = Some (v, r) -> length r <= length s)
  /\ (forall s l r,
         JSON.parse_elements f s = Some (l, r) -> length r <= length s)
  /\ (forall s acc m r,
         JSON.parse_members f s acc = Some (m, r) -> length r <= length s).
Proof.
  induction f as [|f (IHv & IHe & IHm)].
  - repeat split; intros; discriminate.
  - split; [|split].
    + intros s v r H. rewrite parse_value_S in H.
      repeat break_hyp H;
        repeat match goal with
        | X : JSON.parse_elements f _ = Some _ |- _ => apply IHe in X
        | X : JSON.parse_members f _ _ = Some _ |- _ => apply IHm in X
        end;
        learn_lengths; injection H as <- <-; simpl in *; lia.
    + intros s l r H. rewrite parse_elements_S in H.
      repeat break_hyp H;
        repeat match goal with
        | X : JSON.parse_elements f _ = Some _ |- _ => apply IHe in X
        | X : JSON.parse_value f _ = Some _ |- _ => apply IHv in X
        end;
        learn_lengths; injection H as <- <-; simpl in *; lia.
    + intros s acc m r H. rewrite parse_members_S in H.
      repeat break_hyp H;
        repeat match goal with
        | X : JSON.parse_value f _ = Some _ |- _ => apply IHv in X
        end;
        learn_lengths;
        try (apply IHm in H);
        try (injection H as <- <-); simpl in *; lia.
Qed.

Lemma parse_fuel_step (f : nat) :
  (forall s,
      2 * length s + 1 <= f ->
      JSON.parse_value (S f) s = JSON.parse_value f s)
  /\ (forall s,
         2 * length s + 2 <= f ->
         JSON.parse_elements (S f) s = JSON.parse_elements f s)
  /\ (forall s acc,
         2 * length s + 2 <= f ->
         JSON.parse_members (S f) s acc = JSON.parse_members f s acc).
Proof.
  induction f as [|f (IHv & IHe & IHm)].
  - repeat split; intros; lia.
  - split; [|split].
    + intros s Hs. rewrite (parse_value_S (S f)), (parse_value_S f).
      destruct (JSON.skip_ws s) as [|c r] eqn:E1; [reflexivity|].
      apply skip_ws_cons_length in E1.
      destruct (c =? 91)%N.
      { destruct (JSON.skip_ws r) as [|d r'] eqn:E2; [reflexivity|].
        destruct (d =? 93)%N; [reflexivity|].
        rewrite IHe by lia. reflexivity. }
      destruct (c =? 123)%N; [|reflexivity].
      destruct (JSON.skip_ws r) as [|d r'] eqn:E2; [reflexivity|].
      destruct (d =? 125)%N; [reflexivity|].
      rewrite IHm by lia. reflexivity.
    + intros s Hs. rewrite (parse_elements_S (S f)), (parse_elements_S f).
      rewrite IHv by lia.
      destruct (JSON.parse_value f s) as [[v r]|] eqn:E1; [|reflexivity].
      apply (proj1 (parse_rest_length f)) in E1.
      destruct (JSON.skip_ws r) as [|c r'] eqn:E2; [reflexivity|].
      apply skip_ws_cons_length in E2.
      destruct (c =? 44)%N; [|reflexivity].
      rewrite IHe by lia. reflexivity.
    + intros s acc Hs. rewrite (parse_members_S (S f)), (parse_members_S f).
      destruct (JSON.skip_ws s) as [|q r0] eqn:E1; [reflexivity|].
      apply skip_ws_cons_length in E1.
      destruct (negb (q =? QUOTE)%N); [reflexivity|].
      destruct (JSON.parse_string_body r0) as [[k r1]|] eqn:E2; [|reflexivity].
      apply parse_string_body_length in E2.
      destruct (JSON.skip_ws r1) as [|c r2] eqn:E3; [reflexivity|].
      apply skip_ws_cons_length in E3.
      destruct (negb (c =? 58)%N); [reflexivity|].
      rewrite IHv by lia.
      destruct (JSON.parse_value f r2) as [[v r3]|] eqn:E4; [|reflexivity].
      apply (proj1 (parse_rest_length f)) in E4.
      destruct (JSON.skip_ws r3) as [|d r4] eqn:E5; [reflexivity|].
      apply skip_ws_cons_length in E5.
      destruct (d =? 44)%N; [|reflexivity].
      rewrite IHm by lia. reflexivity.
Qed.

(** More fuel than [JSON.parse] gives changes nothing. *)
Lemma parse_fuel_enough (s : jsstring) (k : nat) :
  JSON.parse_value (2 * length s + 2 + k) s
  = JSON.parse_value (2 * length s + 2) s.
Proof.
  induction k as [|k IH]; [rewrite Nat.add_0_r; reflexivity|].
  rewrite Nat.add_succ_r.
  rewrite (proj1 (parse_fuel_step _)) by lia. exact IH.
Qed.

(* ================================================================== *)
(** * Further properties of the event handlers *)
(* ================================================================== *)

(** ** The active filter button *)

Lemma render_filterButtons (p : Page) :
  filterButtons (render p)
  = List.map
      (fun btn =>
         mkFilterBtn (dataset_filter btn)
           (str_eqb (dataset_filter btn) (currentFilter p)))
      (filterButtons p).
Proof. unfold render. rewrite render_cards_spec. reflexivity. Qed.

Lemma one_match (f : jsstring) (l : list filter_btn) :
  NoDup (List.map dataset_filter l) ->
  In f (List.map dataset_filter l) ->
  length (filter (fun btn => str_eqb (dataset_filter btn) f) l) = 1.
Proof.
  induction l as [|b l IH]; simpl; [intros _ []|].
  intros Hnd Hin. inversion Hnd as [|x xs Hnotin Hnd']; subst.
  destruct (str_eqb (dataset_filter b) f) eqn:E.
  - apply str_eqb_eq in E. subst f. simpl. f_equal.
    assert (Hnone : forall l',
               ~ In (dataset_filter b) (List.map dataset_filter l') ->
               filter (fun btn => str_eqb (dataset_filter btn) (dataset_filter b)) l'
               = []).
    { induction l' as [|c l' IH']; simpl; [reflexivity|]. intros Hn.
      destruct (str_eqb (dataset_filter c) (dataset_filter b)) eqn:E'.
      - apply str_eqb_eq in E'. exfalso. apply Hn. left. exact E'.
      - apply IH'. intros H. apply Hn. right. exact H. }
    rewrite Hnone by assumption. reflexivity.
  - apply str_eqb_neq in E. destruct Hin as [Hin|Hin]; [contradiction|].
    apply IH; assumption.
Qed.

(** After a render a filter button carries [active] exactly when its
    [data-filter] is the current filter, and the buttons keep their
    [data-filter] values and their order.  When the buttons have pairwise
    distinct values and one of them is the current filter, exactly one
    button is active. *)
Theorem active_filter_marked (p : Page) :
  List.map dataset_filter (filterButtons (render p))
  = List.map dataset_filter (filterButtons p)
  /\ (forall btn,
         In btn (filterButtons (render p)) ->
         (active btn = true <-> dataset_filter btn = currentFilter p))
  /\ (NoDup (List.map dataset_filter (filterButtons p)) ->
      In (currentFilter p) (List.map dataset_filter (filterButtons p)) ->
      length (filter active (filterButtons (render p))) = 1).
Proof.
  rewrite render_filterButtons. split; [|split].
  - rewrite map_map. reflexivity.
  - intros btn Hin. apply in_map_iff in Hin. destruct Hin as (b & <- & _).
    simpl. apply str_eqb_eq.
  - intros Hnd Hin.
    rewrite <- (one_match (currentFilter p) (filterButtons p) Hnd Hin).
    generalize (filterButtons p). intros l.
    induction l as [|b l IH]; simpl; [reflexivity|].
    destruct (str_eqb (dataset_filter b) (currentFilter p)); simpl; congruence.
Qed.

Lemma active_filter_marked_witness :
  NoDup (List.map dataset_filter (filterButtons one_record))
  /\ In (currentFilter one_record)
        (List.map dataset_filter (filterButtons one_record))
  /\ length (filter active (filterButtons (render one_record))) = 1.
Proof.
  assert (H1 : NoDup (List.map dataset_filter (filterButtons one_record))).
  { vm_compute. repeat constructor; simpl; intuition discriminate. }
  assert (H2 : In (currentFilter one_record)
                 (List.map dataset_filter (filterButtons one_record))).
  { vm_compute. left. reflexivity. }
  split; [exact H1|]. split; [exact H2|].
  exact (proj2 (proj2 (active_filter_marked one_record)) H1 H2).
Defined.

(** ** Clicks on cards *)

Lemma onCardAction_of_card (op : opportunity) (p : Page) :
  onCardAction (createOpportunityCard op) p = toggleSavedStatus (id op) p.
Proof.
  unfold onCardAction, createOpportunityCard. cbn [dataset_id].
  rewrite parseInt10_toString. reflexivity.
Qed.

(** The id written into [data-id] by [createOpportunityCard] is the id the
    click listener reads back with [parseInt], for every id that is a
    safe integer: a click on the action button of the card of such a
    record toggles the record with that id, whether the record is saved
    or not. *)
Theorem card_click_toggles (op : opportunity) (p : Page) :
  safe_integer (id op) ->
  parseInt10 (dataset_id (createOpportunityCard op)) = Some (id op)
  /\ onCardAction (createOpportunityCard op) p = toggleSavedStatus (id op) p.
Proof.
  intros _. split; [apply parseInt10_toString|apply onCardAction_of_card].
Qed.

Lemma card_click_toggles_witness :
  safe_integer 1730000000000
  /\ parseInt10
       (dataset_id
          (createOpportunityCard
             (mkOpportunity 1730000000000 (lit "Grant") (lit "Scholarship")
                false)))
     = Some 1730000000000%Z.
Proof.
  assert (H : safe_integer 1730000000000) by (unfold safe_integer; lia).
  split; [exact H|].
  exact (proj1 (card_click_toggles
                  (mkOpportunity 1730000000000 (lit "Grant")
                     (lit "Scholarship") false) blank H)).
Defined.

(** On a page whose ids are safe integers, a click on the action button
    of any card that [render] has put on the page finds its record: the
    card belongs to a record of the list, and the listener flips a record
    of that id, persists and renders. *)
Theorem rendered_card_click_hits (q : Page) (c : card) :
  Forall (fun op => safe_integer (id op)) (opportunities q) ->
  In c (availableList (render q) ++ savedList (render q)) ->
  exists op,
    In op (opportunities q)
    /\ c = createOpportunityCard op
    /\ onCardAction c (render q)
       = saveAndRender
           (set_opportunities (flip_found (id op) (opportunities q))
              (render q)).
Proof.
  intros _ Hin.
  destruct (render_fields q) as (Ho & _ & _ & _ & _ & Ha & Hs & _).
  rewrite Ha, Hs, <- map_app in Hin.
  apply in_map_iff in Hin. destruct Hin as (op & <- & Hop).
  assert (Hmem : In op (opportunities q)).
  { apply in_app_or in Hop. unfold available_of, saved_of in Hop.
    destruct Hop as [H|H]; apply filter_In in H; destruct H as [H _];
      apply filter_In in H; tauto. }
  exists op. split; [exact Hmem|]. split; [reflexivity|].
  rewrite onCardAction_of_card, toggle_present.
  - rewrite Ho. reflexivity.
  - rewrite Ho. eapply present_find; eauto.
Qed.

Lemma rendered_card_click_hits_witness :
  Forall (fun op => safe_integer (id op)) (opportunities one_record)
  /\ In (createOpportunityCard
           (mkOpportunity 42 (lit "Summer Internship") (lit "Internship")
              false))
        (availableList (render one_record) ++ savedList (render one_record))
  /\ exists op,
       In op (opportunities one_record)
       /\ createOpportunityCard
            (mkOpportunity 42 (lit "Summer Internship") (lit "Internship") false)
          = createOpportunityCard op
       /\ onCardAction
            (createOpportunityCard
               (mkOpportunity 42 (lit "Summer Internship") (lit "Internship")
                  false))
            (render one_record)
          = saveAndRender
              (set_opportunities
                 (flip_found (id op) (opportunities one_record))
                 (render one_record)).
Proof.
  assert (Hs : Forall (fun op => safe_integer (id op))
                 (opportunities one_record)).
  { assert (Ho : opportunities one_record
                 = [mkOpportunity 42 (lit "Summer Internship")
                      (lit "Internship") false])
      by (vm_compute; reflexivity).
    rewrite Ho. constructor; [|constructor].
    unfold safe_integer. cbn [id]. lia. }
  assert (H : In (createOpportunityCard
                    (mkOpportunity 42 (lit "Summer Internship")
                       (lit "Internship") false))
                 (availableList (render one_record)
                  ++ savedList (render one_record))).
  { vm_compute. left. reflexivity. }
  split; [exact Hs|]. split; [exact H|].
  exact (rendered_card_click_hits one_record _ Hs H).
Defined.

(** ** What the events never change *)

Lemma flip_found_keys (i : Z) (l : list opportunity) :
  List.map (fun op => (id op, title op, category op)) (flip_found i l)
  = List.map (fun op => (id op, title op, category op)) l.
Proof.
  induction l as [|x l IH]; simpl; [reflexivity|].
  destruct (id x =? i)%Z; simpl; congruence.
Qed.

Lemma dispatch_keys (e : event) (p : Page) :
  exists l,
    List.map (fun op => (id op, title op, category op))
      (opportunities (dispatch e p))
    = List.map (fun op => (id op, title op, category op)) (opportunities p)
      ++ l.
Proof.
  destruct e as [now|c|btn|v|v]; simpl.
  - unfold handleAddOpportunity.
    destruct (trim (titleInput_value p)) eqn:E.
    + exists []. rewrite app_nil_r. reflexivity.
    + eexists. rewrite (proj1 (saveAndRender_fields _)). simpl.
      rewrite map_app. reflexivity.
  - exists []. rewrite app_nil_r.
    unfold onCardAction, toggleSavedStatus.
    destruct (parseInt10 (dataset_id c)); [|reflexivity].
    destruct (find _ (opportunities p)); [|reflexivity].
    rewrite (proj1 (saveAndRender_fields _)). simpl. apply flip_found_keys.
  - exists []. rewrite app_nil_r.
    unfold onFilter. rewrite (proj1 (render_fields _)). reflexivity.
  - exists []. rewrite app_nil_r. reflexivity.
  - exists []. rewrite app_nil_r. reflexivity.
Qed.

(** No event removes, reorders or rewrites a record: after any events the
    ids, titles and categories of the records that were in the list are
    still there, at the same positions, and whatever is new comes after
    them.  Only [saved] can differ. *)
Theorem records_only_appended (es : list event) (p : Page) :
  exists l,
    List.map (fun op => (id op, title op, category op))
      (opportunities (run es p))
    = List.map (fun op => (id op, title op, category op)) (opportunities p)
      ++ l.
Proof.
  unfold run. revert p. induction es as [|e es IH]; intros p; simpl fold_left.
  - exists []. rewrite app_nil_r. reflexivity.
  - destruct (IH (dispatch e p)) as (l2 & H2).
    destruct (dispatch_keys e p) as (l1 & H1).
    exists (l1 ++ l2). rewrite H2, H1, <- app_assoc. reflexivity.
Qed.

Lemma dispatch_other_keys (e : event) (p : Page) (k : jsstring) :
  k <> STORAGE_KEY ->
  getItem k (localStorage (dispatch e p)) = getItem k (localStorage p).
Proof.
  intros Hk.
  assert (Hsr : forall q,
             getItem k (localStorage (saveAndRender q))
             = getItem k (localStorage q)).
  { intros q. rewrite (proj1 (proj2 (proj2 (saveAndRender_fields q)))).
    apply getItem_setItem_other, Hk. }
  destruct e as [now|c|btn|v|v]; simpl.
  - unfold handleAddOpportunity.
    destruct (trim (titleInput_value p)); [reflexivity|].
    rewrite Hsr. reflexivity.
  - unfold onCardAction, toggleSavedStatus.
    destruct (parseInt10 (dataset_id c)); [|reflexivity].
    destruct (find _ (opportunities p)); [|reflexivity].
    rewrite Hsr. reflexivity.
  - unfold onFilter.
    rewrite (proj1 (proj2 (proj2 (render_fields _)))). reflexivity.
  - reflexivity.
  - reflexivity.
Qed.

(** The program writes one key of the storage area: whatever else the
    origin keeps there is found unchanged after any events. *)
Theorem other_keys_untouched (es : list event) (p : Page) (k : jsstring) :
  k <> STORAGE_KEY ->
  getItem k (localStorage (run es p)) = getItem k (localStorage p).
Proof.
  intros Hk. unfold run. revert p.
  induction es as [|e es IH]; intros p; simpl fold_left; [reflexivity|].
  rewrite IH. apply dispatch_other_keys, Hk.
Qed.

Lemma other_keys_untouched_witness :
  lit "theme" <> STORAGE_KEY
  /\ getItem (lit "theme")
       (localStorage
          (run [InputTitle (lit "Grant"); ClickAdd 7]
             (set_localStorage [(lit "theme", lit "dark")] blank)))
     = Some (lit "dark").
Proof.
  assert (H : lit "theme" <> STORAGE_KEY) by discriminate.
  split; [exact H|].
  rewrite (other_keys_untouched
             [InputTitle (lit "Grant"); ClickAdd 7]
             (set_localStorage [(lit "theme", lit "dark")] blank)
             (lit "theme") H).
  reflexivity.
Defined.

(** ** White space in titles *)

Lemma trimStart_nil_iff (s : jsstring) :
  trimStart s = [] <-> forallb isWhiteSpace s = true.
Proof.
  induction s as [|c s IH]; simpl; [tauto|].
  destruct (isWhiteSpace c); simpl; [exact IH|].
  split; discriminate.
Qed.

Lemma trimStart_split (s : jsstring) :
  exists w, s = w ++ trimStart s /\ forallb isWhiteSpace w = true.
Proof.
  induction s as [|c s (w & Hw & Hws)]; simpl.
  - exists []. split; reflexivity.
  - destruct (isWhiteSpace c) eqn:E.
    + exists (c :: w). simpl. rewrite E, Hws. split; [congruence|reflexivity].
    + exists []. split; reflexivity.
Qed.

Lemma trimStart_head (s : jsstring) (c : char16) (r : jsstring) :
  trimStart s = c :: r -> isWhiteSpace c = false.
Proof.
  induction s as [|x s IH]; simpl; [discriminate|].
  destruct (isWhiteSpace x) eqn:E; [exact IH|].
  intros [= <- <-]. exact E.
Qed.

Lemma trimStart_fixed (s : jsstring) :
  match s with [] => True | c :: _ => isWhiteSpace c = false end ->
  trimStart s = s.
Proof. destruct s as [|c r]; simpl; [reflexivity|]. intros ->. reflexivity. Qed.

Lemma forallb_rev_ws (s : jsstring) :
  forallb isWhiteSpace (rev s) = forallb isWhiteSpace s.
Proof.
  induction s as [|c s IH]; simpl; [reflexivity|].
  rewrite forallb_app, IH. simpl. rewrite andb_true_r. apply andb_comm.
Qed.

Lemma trim_nil_iff (s : jsstring) :
  trim s = [] <-> forallb isWhiteSpace s = true.
Proof.
  unfold trim, trimEnd. split.
  - intros H. apply (f_equal (@rev N)) in H. rewrite rev_involutive in H.
    simpl in H. apply trimStart_nil_iff in H. rewrite forallb_rev_ws in H.
    destruct (trimStart s) as [|c r] eqn:E; [apply trimStart_nil_iff, E|].
    apply trimStart_head in E. simpl in H. rewrite E in H. discriminate.
  - intros H. apply trimStart_nil_iff in H. rewrite H. reflexivity.
Qed.

(** What [trim] returns has white space neither in front nor at the
    end. *)
Lemma trim_trimmed (s : jsstring) :
  trimStart (trim s) = trim s /\ trimEnd (trim s) = trim s.
Proof.
  unfold trim, trimEnd. rewrite rev_involutive.
  set (t := trimStart s).
  assert (Ht : match t with [] => True | c :: _ => isWhiteSpace c = false end).
  { destruct t as [|c r] eqn:E; [exact I|]. eapply trimStart_head. exact E. }
  set (u := trimStart (rev t)).
  assert (Hu : match u with [] => True | c :: _ => isWhiteSpace c = false end).
  { destruct u as [|c r] eqn:E; [exact I|]. eapply trimStart_head. exact E. }
  split.
  - apply trimStart_fixed.
    destruct (trimStart_split (rev t)) as (w & Hw & _). fold u in Hw.
    apply (f_equal (@rev N)) in Hw. rewrite rev_involutive, rev_app_distr in Hw.
    destruct (rev u) as [|c r] eqn:E; [exact I|].
    rewrite Hw in Ht. simpl in Ht. exact Ht.
  - rewrite (trimStart_fixed u Hu). reflexivity.
Qed.

(** The add is rejected exactly when the title field holds nothing but
    white space (or nothing at all): the list stays as it is if and only
    if every code unit typed is a white-space or line-terminator unit. *)
Theorem add_rejected_iff_blank (now : Z) (p : Page) :
  opportunities (handleAddOpportunity now p) = opportunities p
  <-> forallb isWhiteSpace (titleInput_value p) = true.
Proof.
  rewrite <- trim_nil_iff. split.
  - intros H. destruct (trim (titleInput_value p)) eqn:E; [reflexivity|].
    rewrite handleAdd_accepted in H by congruence.
    rewrite (proj1 (saveAndRender_fields _)) in H. simpl in H.
    apply (f_equal (@length opportunity)) in H.
    rewrite length_app in H. simpl in H. lia.
  - intros H. rewrite handleAdd_rejected by assumption. reflexivity.
Qed.

Lemma dispatch_titles (e : event) (p : Page) :
  Forall (fun op => title op <> []
                    /\ trimStart (title op) = title op
                    /\ trimEnd (title op) = title op) (opportunities p) ->
  Forall (fun op => title op <> []
                    /\ trimStart (title op) = title op
                    /\ trimEnd (title op) = title op)
    (opportunities (dispatch e p)).
Proof.
  intros H. destruct e as [now|c|btn|v|v]; simpl; auto.
  - unfold handleAddOpportunity.
    destruct (trim (titleInput_value p)) eqn:E; [exact H|].
    rewrite (proj1 (saveAndRender_fields _)). simpl.
    apply Forall_app. split; [exact H|]. constructor; [|constructor].
    cbn [title]. rewrite <- E.
    destruct (trim_trimmed (titleInput_value p)) as [H0 H1].
    split; [rewrite E; discriminate|]. split; assumption.
  - unfold onCardAction, toggleSavedStatus.
    destruct (parseInt10 (dataset_id c)); [|exact H].
    destruct (find _ (opportunities p)); [|exact H].
    rewrite (proj1 (saveAndRender_fields _)). simpl.
    induction H as [|x l Hx Hl IH]; simpl; [constructor|].
    destruct (id x =? z)%Z; constructor; auto.
  - unfold onFilter. rewrite (proj1 (render_fields _)). exact H.
Qed.

(** Every title the program stores is non-empty and has white space
    neither in front nor at the end: if this holds of the list, it holds
    after any events. *)
Theorem titles_stay_trimmed (es : list event) (p : Page) :
  Forall (fun op => title op <> []
                    /\ trimStart (title op) = title op
                    /\ trimEnd (title op) = title op) (opportunities p) ->
  Forall (fun op => title op <> []
                    /\ trimStart (title op) = title op
                    /\ trimEnd (title op) = title op)
    (opportunities (run es p)).
Proof.
  unfold run. revert p.
  induction es as [|e es IH]; intros p H; simpl fold_left; [exact H|].
  apply IH, dispatch_titles, H.
Qed.

Lemma titles_stay_trimmed_witness :
  Forall (fun op => title op <> []
                    /\ trimStart (title op) = title op
                    /\ trimEnd (title op) = title op) (opportunities blank)
  /\ Forall (fun op => title op <> []
                       /\ trimStart (title op) = title op
                       /\ trimEnd (title op) = title op)
       (opportunities
          (run [InputTitle (lit "  Grant  "); ClickAdd 7;
                InputTitle (lit "   "); ClickAdd 8] blank)).
Proof.
  assert (H : Forall (fun op => title op <> []
                                /\ trimStart (title op) = title op
                                /\ trimEnd (title op) = title op)
                (opportunities blank)) by constructor.
  split; [exact H|]. exact (titles_stay_trimmed _ blank H).
Defined.

(** ** Adding twice *)

(** An accepted add empties the title field, so a second click on the add
    button with nothing typed in between is rejected: the list keeps the
    one new record and the validation message is shown. *)
Theorem add_twice_rejected (now1 now2 : Z) (p : Page) :
  trim (titleInput_value p) <> [] ->
  titleInput_value (handleAddOpportunity now1 p) = []
  /\ opportunities (handleAddOpportunity now2 (handleAddOpportunity now1 p))
     = opportunities p
       ++ [mkOpportunity now1 (trim (titleInput_value p))
             (typeInput_value p) false]
  /\ error_indicator
       (handleAddOpportunity now2 (handleAddOpportunity now1 p))
     = (lit "block", lit "Opportunity title cannot be empty.").
Proof.
  intros H.
  assert (Ht : titleInput_value (handleAddOpportunity now1 p) = []).
  { rewrite handleAdd_accepted by assumption.
    rewrite (proj1 (proj2 (proj2 (proj2 (saveAndRender_fields _))))).
    reflexivity. }
  split; [exact Ht|].
  assert (Hr : trim (titleInput_value (handleAddOpportunity now1 p)) = [])
    by (rewrite Ht; reflexivity).
  rewrite (handleAdd_rejected now2 _ Hr). split; [|reflexivity].
  cbn [showError opportunities set_errorMessage_display
       set_errorMessage_textContent].
  rewrite handleAdd_accepted by assumption.
  rewrite (proj1 (saveAndRender_fields _)). reflexivity.
Qed.

Lemma add_twice_rejected_witness :
  trim (titleInput_value (typed (lit "Grant"))) <> []
  /\ opportunities
       (handleAddOpportunity 8 (handleAddOpportunity 7 (typed (lit "Grant"))))
     = [mkOpportunity 7 (lit "Grant") (lit "Internship") false]
  /\ error_indicator
       (handleAddOpportunity 8 (handleAddOpportunity 7 (typed (lit "Grant"))))
     = (lit "block", lit "Opportunity title cannot be empty.").
Proof.
  assert (H : trim (titleInput_value (typed (lit "Grant"))) <> [])
    by discriminate.
  split; [exact H|].
  destruct (add_twice_rejected 7 8 (typed (lit "Grant")) H) as (_ & H1 & H2).
  split; [exact H1|exact H2].
Defined.

(** ** A new session *)

Lemma filter_all_true {A} (f : A -> bool) (l : list A) :
  (forall x, f x = true) -> filter f l = l.
Proof.
  intros H. induction l as [|x l IH]; simpl; [reflexivity|].
  rewrite H, IH. reflexivity.
Qed.

(** When the storage area holds the snapshot of the list, a script that
    starts on that storage area ends [init] with the same list, the
    filter [all], and every record on the page: the unsaved ones in the
    available container and the saved ones in the saved container, in
    list order. *)
Theorem reload_restores (p : Page) (titleValue typeValue : jsstring)
    (buttons : list filter_btn) (errorText errorDisplay : jsstring) :
  getItem STORAGE_KEY (localStorage p)
  = Some (JSON.stringify (opportunities p)) ->
  exists p',
    init (start (localStorage p) titleValue typeValue buttons errorText
            errorDisplay)
    = Normal p'
    /\ opportunities p' = opportunities p
    /\ currentFilter p' = lit "all"
    /\ availableList p'
       = List.map createOpportunityCard
           (filter (fun op => negb (saved op)) (opportunities p))
    /\ savedList p'
       = List.map createOpportunityCard
           (filter (fun op => saved op) (opportunities p))
    /\ counterSpan_textContent p' = counter_label (opportunities p)
    /\ localStorage p' = localStorage p.
Proof.
  intros Hg. eexists. split.
  - unfold init. rewrite (load_stringified _ (opportunities p)) by exact Hg.
    reflexivity.
  - destruct (render_fields
                (set_opportunities (opportunities p)
                   (start (localStorage p) titleValue typeValue buttons
                      errorText errorDisplay)))
      as (-> & -> & -> & _ & _ & -> & -> & -> & _).
    cbn [opportunities currentFilter localStorage set_opportunities start].
    unfold available_of, saved_of.
    rewrite (filter_all_true (matches_filter (lit "all")) (opportunities p))
      by reflexivity.
    repeat split; reflexivity.
Qed.

Lemma reload_restores_witness :
  getItem STORAGE_KEY (localStorage one_record)
  = Some (JSON.stringify (opportunities one_record))
  /\ exists p',
       init (start (localStorage one_record) [] (lit "Internship") [] [] [])
       = Normal p'
       /\ opportunities p' = opportunities one_record
       /\ currentFilter p' = lit "all".
Proof.
  assert (H : getItem STORAGE_KEY (localStorage one_record)
              = Some (JSON.stringify (opportunities one_record)))
    by (vm_compute; reflexivity).
  split; [exact H|].
  destruct (reload_restores one_record [] (lit "Internship") [] [] [] H)
    as (p' & H1 & H2 & H3 & _).
  exists p'. split; [exact H1|]. split; [exact H2|exact H3].
Defined.

(** ** [escapeHTML] *)

Lemma escapeHTML_app (a b : jsstring) :
  escapeHTML (a ++ b) = escapeHTML a ++ escapeHTML b.
Proof. unfold escapeHTML. apply flat_map_app. Qed.

Lemma escape_unit_nonempty (c : char16) : escape_unit c <> [].
Proof.
  destruct (escape_unit_cases c)
    as [[_ ->]|[[_ ->]|[[_ ->]|[[_ ->]|(_ & _ & _ & ->)]]]]; discriminate.
Qed.

Lemma escapeHTML_injective (s : jsstring) :
  forall t, escapeHTML s = escapeHTML t -> s = t.
Proof.
  induction s as [|c s IH]; intros [|d t] H.
  - reflexivity.
  - exfalso. change (escapeHTML (d :: t)) with (escape_unit d ++ escapeHTML t) in H.
    simpl in H. symmetry in H. apply app_eq_nil in H.
    exact (escape_unit_nonempty d (proj1 H)).
  - exfalso. change (escapeHTML (c :: s)) with (escape_unit c ++ escapeHTML s) in H.
    simpl in H. apply app_eq_nil in H.
    exact (escape_unit_nonempty c (proj1 H)).
  - change (escapeHTML (c :: s)) with (escape_unit c ++ escapeHTML s) in H.
    change (escapeHTML (d :: t)) with (escape_unit d ++ escapeHTML t) in H.
    destruct (escape_unit_cases c)
      as [[Hc Ec]|[[Hc Ec]|[[Hc Ec]|[[Hc Ec]|(Hc1 & Hc2 & Hc3 & Ec)]]]];
    destruct (escape_unit_cases d)
      as [[Hd Ed]|[[Hd Ed]|[[Hd Ed]|[[Hd Ed]|(Hd1 & Hd2 & Hd3 & Ed)]]]];
      rewrite Ec, Ed in H; simpl in H;
      try discriminate H;
      try (injection H as H; subst; f_equal; apply IH; assumption);
      try (injection H as H0 H; subst; congruence).
Qed.

(** The markup [escapeHTML] returns is read back by the parser as one run
    of character data: the string that was escaped as a text node keeps
    it (newlines normalised, NUL left out), which is the string itself
    when it holds neither a carriage return nor a NUL.  Two different
    strings never escape to the same markup. *)
Theorem escapeHTML_round_trip (s : jsstring) :
  tokens (escapeHTML s) = Some [Text (html_text s)]
  /\ (forallb (fun c => negb (c =? 13)%N && negb (c =? 0)%N) s = true ->
      tokens (escapeHTML s) = Some [Text s])
  /\ forall t, escapeHTML s = escapeHTML t -> s = t.
Proof.
  assert (H : tokens (escapeHTML s) = Some [Text (html_text s)]).
  { unfold tokens, html_text.
    rewrite <- (List.app_nil_r (escapeHTML s)).
    rewrite normalize_escape by reflexivity.
    rewrite tokens_escapeHTML. reflexivity. }
  split; [exact H|]. split; [|apply escapeHTML_injective].
  intros Hs. rewrite H, html_text_plain by assumption. reflexivity.
Qed.

Lemma escapeHTML_round_trip_witness :
  forallb (fun c => negb (c =? 13)%N && negb (c =? 0)%N) (lit "a<b>&c") = true
  /\ tokens (escapeHTML (lit "a<b>&c")) = Some [Text (lit "a<b>&c")]
  /\ tokens (escapeHTML [97%N; 13%N; 98%N; 0%N; 99%N])
     = Some [Text [97%N; 10%N; 98%N; 99%N]].
Proof.
  split; [reflexivity|]. split.
  - apply (proj1 (proj2 (escapeHTML_round_trip (lit "a<b>&c")))).
    reflexivity.
  - rewrite (proj1 (escapeHTML_round_trip [97%N; 13%N; 98%N; 0%N; 99%N])).
    reflexivity.
Defined.

(** ** The effect of an add on the page *)

(** An accepted add never touches the saved container; the card of the
    new record is put at the end of the available container when the
    filter is [all] or the record's category, and nowhere otherwise. *)
Theorem add_shows_new_card (now : Z) (p : Page) :
  trim (titleInput_value p) <> [] ->
  availableList p
  = List.map createOpportunityCard
      (available_of (currentFilter p) (opportunities p)) ->
  savedList p
  = List.map createOpportunityCard
      (saved_of (currentFilter p) (opportunities p)) ->
  let new :=
    mkOpportunity now (trim (titleInput_value p)) (typeInput_value p) false in
  savedList (handleAddOpportunity now p) = savedList p
  /\ availableList (handleAddOpportunity now p)
     = availableList p
       ++ (if matches_filter (currentFilter p) new
           then [createOpportunityCard new] else []).
Proof.
  intros Ht Ha Hs. cbv zeta.
  assert (Hsync : in_sync (handleAddOpportunity now p)).
  { rewrite handleAdd_accepted by assumption. apply saveAndRender_in_sync. }
  destruct Hsync as (_ & Ha' & Hs' & _).
  assert (Ho : opportunities (handleAddOpportunity now p)
               = opportunities p
                 ++ [mkOpportunity now (trim (titleInput_value p))
                       (typeInput_value p) false]).
  { rewrite handleAdd_accepted by assumption.
    rewrite (proj1 (saveAndRender_fields _)). reflexivity. }
  assert (Hf : currentFilter (handleAddOpportunity now p) = currentFilter p).
  { rewrite handleAdd_accepted by assumption.
    rewrite (proj1 (proj2 (saveAndRender_fields _))). reflexivity. }
  rewrite Ha', Hs', Ho, Hf, Ha, Hs.
  unfold available_of, saved_of. rewrite !filter_app, !map_app.
  cbn [filter].
  destruct (matches_filter (currentFilter p) _); cbn [filter saved negb List.map].
  - split; [rewrite app_nil_r; reflexivity|reflexivity].
  - split; rewrite app_nil_r; reflexivity.
Qed.

Lemma add_shows_new_card_witness :
  trim (titleInput_value
          (set_titleInput_value (lit "Grant")
             (onFilter (mkFilterBtn (lit "Scholarship") false) one_record)))
  <> []
  /\ availableList
       (handleAddOpportunity 50
          (set_titleInput_value (lit "Grant")
             (onFilter (mkFilterBtn (lit "Scholarship") false) one_record)))
     = [].
Proof.
  split; [discriminate|].
  destruct (add_shows_new_card 50
              (set_titleInput_value (lit "Grant")
                 (onFilter (mkFilterBtn (lit "Scholarship") false) one_record)))
    as (_ & H); [discriminate|vm_compute; reflexivity|vm_compute; reflexivity|].
  rewrite H. vm_compute. reflexivity.
Defined.

(** ** Filter changes *)

(** A filter change writes neither the list nor the storage area, and
    filter changes do not add up: after two of them the page is the one
    the second alone would give. *)
Theorem filter_changes_compose (b1 b2 : filter_btn) (p : Page) :
  onFilter b2 (onFilter b1 p) = onFilter b2 p
  /\ opportunities (onFilter b1 p) = opportunities p
  /\ localStorage (onFilter b1 p) = localStorage p
  /\ currentFilter (onFilter b1 p) = dataset_filter b1.
Proof.
  split.
  - unfold onFilter, render. rewrite !render_cards_spec. simpl.
    unfold updateActiveFilter, updateCounter, set_filterButtons, set_counter.
    simpl. f_equal.
    rewrite map_map. apply map_ext. intros btn. reflexivity.
  - unfold onFilter.
    destruct (render_fields (set_currentFilter (dataset_filter b1) p))
      as (-> & -> & -> & _).
    repeat split; reflexivity.
Qed.

(** ** The effect of a toggle on the counts *)

Lemma count_saved_app (l1 l2 : list opportunity) :
  count_occ bool_dec (List.map saved (l1 ++ l2)) true
  = count_occ bool_dec (List.map saved l1) true
    + count_occ bool_dec (List.map saved l2) true.
Proof. rewrite map_app. apply count_occ_app. Qed.

(** A toggle that finds its record keeps the length of the list and moves
    exactly one record between the two groups: the number of saved
    records goes up by one when the record was not saved and down by one
    when it was. *)
Theorem toggle_moves_one (i : Z) (p : Page) (op : opportunity) :
  find (fun o => (id o =? i)%Z) (opportunities p) = Some op ->
  length (opportunities (toggleSavedStatus i p)) = length (opportunities p)
  /\ count_occ bool_dec
       (List.map saved (opportunities (toggleSavedStatus i p))) true
     + (if saved op then 1 else 0)
     = count_occ bool_dec (List.map saved (opportunities p)) true
       + (if saved op then 0 else 1).
Proof.
  intros Hf.
  destruct (flip_found_split _ _ _ Hf) as (l1 & l2 & Hl & _ & _ & Hfl).
  rewrite toggle_present by congruence.
  rewrite (proj1 (saveAndRender_fields _)).
  cbn [opportunities set_opportunities]. rewrite Hfl, Hl.
  split.
  - rewrite !length_app. reflexivity.
  - rewrite !count_saved_app. cbn [List.map count_occ flipped saved].
    destruct (saved op); simpl;
      repeat match goal with
      | |- context [bool_dec ?a ?b] => destruct (bool_dec a b); try congruence
      end; lia.
Qed.

Lemma toggle_moves_one_witness :
  find (fun o => (id o =? 42)%Z) (opportunities one_record)
  = Some (mkOpportunity 42 (lit "Summer Internship") (lit "Internship") false)
  /\ count_occ bool_dec
       (List.map saved (opportunities (toggleSavedStatus 42 one_record))) true
     + 0
     = count_occ bool_dec (List.map saved (opportunities one_record)) true + 1.
Proof.
  assert (H : find (fun o => (id o =? 42)%Z) (opportunities one_record)
              = Some (mkOpportunity 42 (lit "Summer Internship")
                        (lit "Internship") false))
    by (vm_compute; reflexivity).
  split; [exact H|].
  exact (proj2 (toggle_moves_one 42 one_record _ H)).
Defined.

(** ** Toggling twice *)

Lemma setItem_setItem (k v1 v2 : jsstring) (s : Storage) :
  setItem k v2 (setItem k v1 s) = setItem k v2 s.
Proof.
  induction s as [|[k' v'] s IH]; simpl.
  - rewrite str_eqb_refl. reflexivity.
  - destruct (str_eqb k' k) eqn:E; simpl; rewrite E; [reflexivity|].
    rewrite IH. reflexivity.
Qed.

(** Saving and rendering forgets an earlier save and render. *)
Lemma saveAndRender_absorb (l : list opportunity) (q : Page) :
  saveAndRender (set_opportunities l (saveAndRender q))
  = saveAndRender (set_opportunities l q).
Proof.
  unfold saveAndRender, saveToStorage, render.
  rewrite !render_cards_spec. simpl.
  unfold updateActiveFilter, updateCounter, set_filterButtons, set_counter.
  simpl. rewrite setItem_setItem. f_equal.
  rewrite map_map. apply map_ext. intros btn. reflexivity.
Qed.

Lemma saveAndRender_same_list (q : Page) :
  saveAndRender (set_opportunities (opportunities q) q) = saveAndRender q.
Proof. destruct q; reflexivity. Qed.

(** On a page that has just been saved and rendered, toggling the same id
    twice gives back the whole page: list, stored snapshot, containers,
    counter and button marks. *)
Theorem toggle_twice_page (i : Z) (q : Page) :
  toggleSavedStatus i (toggleSavedStatus i (saveAndRender q))
  = saveAndRender q.
Proof.
  destruct (find (fun o => (id o =? i)%Z) (opportunities q)) eqn:E.
  - assert (Hq : find (fun o => (id o =? i)%Z)
                   (opportunities (saveAndRender q)) <> None).
    { rewrite (proj1 (saveAndRender_fields q)). congruence. }
    rewrite (toggle_present i (saveAndRender q) Hq).
    rewrite saveAndRender_absorb.
    rewrite (proj1 (saveAndRender_fields q)).
    rewrite toggle_present.
    + rewrite saveAndRender_absorb.
      rewrite (proj1 (saveAndRender_fields _)).
      cbn [opportunities set_opportunities].
      rewrite flip_found_twice.
      change (set_opportunities (opportunities q)
                (set_opportunities (flip_found i (opportunities q)) q))
        with (set_opportunities (opportunities q) q).
      apply saveAndRender_same_list.
    + rewrite (proj1 (saveAndRender_fields _)).
      cbn [opportunities set_opportunities].
      apply find_flip_found. congruence.
  - assert (Hq : find (fun o => (id o =? i)%Z)
                   (opportunities (saveAndRender q)) = None).
    { rewrite (proj1 (saveAndRender_fields q)). exact E. }
    rewrite (toggle_absent i _ Hq). apply toggle_absent, Hq.
Qed.
